(** * BuildExpenseLedger: the encrypted expense ledger and its client hook

    A shallow embedding of the Solidity contract [BuildExpenseLedger] and of
    the React hook [useExpenseLedger] that drives it, followed by the
    properties of both that the specification states.

    - [Ledger]: the contract.  Storage is three Solidity mappings, modelled
      as finite maps read with the Solidity default; the FHE library
      ([FHE.fromExternal], [FHE.add]) is an interface the contract is
      parameterised over; [FHE.allowThis]/[FHE.allow] write an access
      control list and [emit] appends to the event log.
    - [MockFHE]: one concrete FHE runtime, used to evaluate the contract.
    - [Client]: the hook's four asynchronous operations as programs in a
      small state-and-exception monad over the hook's React state; every
      call that leaves the hook is recorded and answered by the provider,
      signer or FHEVM instance the hook was given.
    - [ClientSamples]: sample wallets and nodes, used to evaluate the hook.
    - [LedgerViews], [ClientTrace]: what a history of transactions and a
      run of the hook leave behind.
    - [Page]: the handlers of the page and of the dialog that call the hook.
    - [LedgerProofs], [ClientProofs], [LedgerExtras], [ClientExtras],
      [ClientFailures], [PageProofs]: the properties. *)

From stdpp Require Import gmap strings list fin_maps pretty.
From Stdlib Require Import ZArith Lia QArith Sorted.

Open Scope Z_scope.

(** ** The contract *)
Module Ledger.

(** Solidity value types.  [address] is a 160-bit word, the encrypted types
    are [bytes32] handles, [uint256] values are naturals (the contract does
    no arithmetic on them). *)
Abbreviation address := Z (only parsing).
Abbreviation euint32 := Z (only parsing).
Abbreviation externalEuint32 := Z (only parsing).
Abbreviation uint256 := N (only parsing).
Abbreviation bytes := (list Byte.byte) (only parsing).

(** [struct ExpenseRecord]; the field [exists] is spelled [exists_]. *)
Record ExpenseRecord := {
  timestamp : uint256;
  category : string;
  exists_ : bool
}.

Inductive Event :=
| ExpenseAdded (user : address) (timestamp : uint256) (category : string)
| MonthlyTotalUpdated (user : address) (timestamp : uint256).

(** The three storage mappings of the contract, then the two pieces of
    chain state the contract writes through the FHE library and [emit]:
    the access control list (handle, account) and the event log. *)
Record State := {
  _encryptedMonthlyTotals : gmap Z Z;
  _expenseRecords : gmap Z (list ExpenseRecord);
  _hasInitialized : gmap Z bool;
  acl : gset (Z * Z);
  logs : list Event
}.

(** State right after deployment: every mapping is empty. *)
Definition deployed : State := {|
  _encryptedMonthlyTotals := ∅;
  _expenseRecords := ∅;
  _hasInitialized := ∅;
  acl := ∅;
  logs := []
|}.

(** Reading a Solidity mapping: an absent key reads as the zero value. *)
Definition totalOf (s : State) (user : address) : euint32 :=
  default 0 (_encryptedMonthlyTotals s !! user).

Definition recordsOf (s : State) (user : address) : list ExpenseRecord :=
  default [] (_expenseRecords s !! user).

Definition initializedOf (s : State) (user : address) : bool :=
  default false (_hasInitialized s !! user).

(** Writing one slot of a mapping. *)
Definition setTotal (user : address) (h : euint32) (s : State) : State := {|
  _encryptedMonthlyTotals := <[user := h]> (_encryptedMonthlyTotals s);
  _expenseRecords := _expenseRecords s;
  _hasInitialized := _hasInitialized s;
  acl := acl s;
  logs := logs s
|}.

Definition setInitialized (user : address) (b : bool) (s : State) : State := {|
  _encryptedMonthlyTotals := _encryptedMonthlyTotals s;
  _expenseRecords := _expenseRecords s;
  _hasInitialized := <[user := b]> (_hasInitialized s);
  acl := acl s;
  logs := logs s
|}.

(** [_expenseRecords[user].push(r)] *)
Definition pushRecord (user : address) (r : ExpenseRecord) (s : State) : State := {|
  _encryptedMonthlyTotals := _encryptedMonthlyTotals s;
  _expenseRecords := <[user := recordsOf s user ++ [r]]> (_expenseRecords s);
  _hasInitialized := _hasInitialized s;
  acl := acl s;
  logs := logs s
|}.

(** [FHE.allow(h, account)]: [account] may use and decrypt [h]. *)
Definition allow (h : euint32) (account : address) (s : State) : State := {|
  _encryptedMonthlyTotals := _encryptedMonthlyTotals s;
  _expenseRecords := _expenseRecords s;
  _hasInitialized := _hasInitialized s;
  acl := {[ (h, account) ]} ∪ acl s;
  logs := logs s
|}.

Definition emit (e : Event) (s : State) : State := {|
  _encryptedMonthlyTotals := _encryptedMonthlyTotals s;
  _expenseRecords := _expenseRecords s;
  _hasInitialized := _hasInitialized s;
  acl := acl s;
  logs := logs s ++ [e]
|}.

(** The part of the FHE library the contract calls on chain.
    [fromExternal this sender handle proof] checks the input proof against
    the ciphertext, the caller and the contract and gives the internal
    handle, or fails; [add] gives the handle of the homomorphic sum. *)
Record FHE := {
  fromExternal : address -> address -> externalEuint32 -> bytes -> option euint32;
  add : euint32 -> euint32 -> euint32
}.

(** What user decryption gives for a handle, and the two facts about it
    that the [euint32] type promises: a clear value is a 32-bit unsigned
    integer, and [add] adds clear values in that type. *)
Record Homomorphic (fhe : FHE) (clear : euint32 -> Z) : Prop := {
  clear_range : forall h, 0 <= clear h < 2 ^ 32;
  clear_add : forall a b, clear (add fhe a b) = (clear a + clear b) mod 2 ^ 32
}.

(** Why a call reverts: the input proof was rejected inside
    [FHE.fromExternal], a [require] failed with its message, or a checked
    operation panicked with its code. *)
Inductive failure :=
| ProofRejected
| RequireFailed (reason : string)
| Panic (code : N).

Inductive result (A : Type) :=
| Ok (a : A)
| Revert (why : failure).
Arguments Ok {A} a.
Arguments Revert {A} why.

(** [msg.sender] and [block.timestamp] of a call. *)
Record Env := {
  msg_sender : address;
  block_timestamp : uint256
}.

Section Contract.

Context (fhe : FHE).
(** [address(this)] *)
Context (this : address).

Definition allowThis (h : euint32) (s : State) : State := allow h this s.

Definition addExpense (env : Env) (encryptedAmount : externalEuint32)
    (inputProof : bytes) (category : string) (s : State) : result State :=
  match fromExternal fhe this (msg_sender env) encryptedAmount inputProof with
  | None => Revert ProofRejected
  | Some amount =>
    let sender := msg_sender env in
    let s :=
      if negb (initializedOf s sender) then
        setInitialized sender true (setTotal sender amount s)
      else
        setTotal sender (add fhe (totalOf s sender) amount) s in
    let s := pushRecord sender
      {| timestamp := block_timestamp env; category := category; exists_ := true |} s in
    let s := allowThis (totalOf s sender) s in
    let s := allow (totalOf s sender) sender s in
    let s := emit (ExpenseAdded sender (block_timestamp env) category) s in
    let s := emit (MonthlyTotalUpdated sender (block_timestamp env)) s in
    Ok s
  end.

Definition getEncryptedMonthlyTotal (s : State) (user : address) : euint32 :=
  totalOf s user.

Definition getExpenseRecordCount (s : State) (user : address) : uint256 :=
  N.of_nat (length (recordsOf s user)).

Definition getExpenseRecord (s : State) (user : address) (index : uint256)
    : result (uint256 * string) :=
  if (index <? N.of_nat (length (recordsOf s user)))%N then
    match recordsOf s user !! N.to_nat index with
    | Some record => Ok (timestamp record, category record)
    | None => Revert (Panic 50)
    end
  else Revert (RequireFailed "Record index out of bounds").

Definition hasInitialized (s : State) (user : address) : bool :=
  initializedOf s user.

(** A transaction calling [addExpense]. *)
Record Tx := {
  tx_env : Env;
  tx_encryptedAmount : externalEuint32;
  tx_inputProof : bytes;
  tx_category : string
}.

Definition call (t : Tx) (s : State) : result State :=
  addExpense (tx_env t) (tx_encryptedAmount t) (tx_inputProof t) (tx_category t) s.

(** The record that [addExpense] pushes for a transaction. *)
Definition recordOf (t : Tx) : ExpenseRecord := {|
  timestamp := block_timestamp (tx_env t);
  category := tx_category t;
  exists_ := true
|}.

(** A reverted transaction leaves the chain state as it was. *)
Definition transact (s : State) (t : Tx) : State :=
  match call t s with
  | Ok s' => s'
  | Revert _ => s
  end.

(** The chain orders transactions; the contract state after a block of
    them, from the deployed state. *)
Definition run (txs : list Tx) : State := fold_left transact txs deployed.

(** The handle that a transaction's input decodes to, when its proof
    verifies. *)
Definition decoded (t : Tx) : option euint32 :=
  fromExternal fhe this (msg_sender (tx_env t)) (tx_encryptedAmount t) (tx_inputProof t).

(** The successful adds of [user] in a list of transactions, in order. *)
Definition addsOf (user : address) (txs : list Tx) : list (Tx * euint32) :=
  omap (fun t =>
    if bool_decide (msg_sender (tx_env t) = user) then
      match decoded t with Some h => Some (t, h) | None => None end
    else None) txs.

End Contract.

Definition sum (l : list Z) : Z := foldr Z.add 0 l.

(** The clear amounts of the successful adds of an account, in order,
    for a decryption [clear] of handles. *)
Definition amountsOf (fhe : FHE) (clear : euint32 -> Z) (this u : address)
    (txs : list Tx) : list Z :=
  map (fun a => clear (snd a)) (addsOf fhe this u txs).

End Ledger.

(** ** A concrete FHE runtime *)
Module MockFHE.
Import Ledger.

(** A handle of this runtime carries its clear value in its low 32 bits
    and a non-zero tag above them, so no handle is the zero sentinel. *)
Definition encrypt (v : Z) : euint32 := 2 ^ 32 + v mod 2 ^ 32.

Definition clear (h : euint32) : Z := h mod 2 ^ 32.

Definition byteOf (z : Z) : Byte.byte :=
  default Byte.x00 (Byte.of_N (Z.to_N (z mod 256))).

(** The input proof this runtime accepts for a ciphertext, a caller and a
    contract. *)
Definition proofFor (this sender handle : Z) : bytes :=
  [byteOf this; byteOf sender; byteOf handle].

Definition sameBytes (p q : bytes) : bool :=
  bool_decide (map Byte.to_N p = map Byte.to_N q).

Definition fhe : FHE := {|
  fromExternal this sender handle proof :=
    if sameBytes proof (proofFor this sender handle) then Some handle else None;
  add a b := 2 * 2 ^ 32 + (a + b) mod 2 ^ 32
|}.

(** Sample accounts and transactions. *)
Definition ledgerAddress : address := 49374.
Definition alice : address := 659918.
Definition bob : address := 2989.

Definition addTx (sender : address) (time : uint256) (amount : Z) (cat : string) : Tx := {|
  tx_env := {| msg_sender := sender; block_timestamp := time |};
  tx_encryptedAmount := encrypt amount;
  tx_inputProof := proofFor ledgerAddress sender (encrypt amount);
  tx_category := cat
|}.

(** A transaction whose proof was made for another caller. *)
Definition forgedTx (sender : address) (time : uint256) (amount : Z) (cat : string) : Tx := {|
  tx_env := {| msg_sender := sender; block_timestamp := time |};
  tx_encryptedAmount := encrypt amount;
  tx_inputProof := proofFor ledgerAddress (sender + 1) (encrypt amount);
  tx_category := cat
|}.

(** The scenario of the specification: Alice adds 1000 then 500, Bob adds 2000. *)
Definition scenario : list Tx :=
  [addTx alice 100 1000 "materials"; addTx alice 200 500 "labor"; addTx bob 300 2000 "materials"].

(** Two adds by Alice whose sum does not fit 32 bits. *)
Definition overflowing : list Tx :=
  [addTx alice 100 4294967295 "materials"; addTx alice 200 1 "labor"].

End MockFHE.

(** ** The client hook *)
Module Client.

Abbreviation bytes := (list Byte.byte) (only parsing).

(** *** JavaScript values *)

(** A JavaScript [number], as far as the hook looks at it: it is only
    compared with zero and passed on. *)
Inductive number :=
| NaN
| Finite (q : Q)
| PosInfinity
| NegInfinity.

(** [x <= 0] *)
Definition leZero (x : number) : bool :=
  match x with
  | NaN => false
  | Finite q => Qle_bool q 0
  | PosInfinity => false
  | NegInfinity => true
  end.

(** The [code] property of a thrown value. *)
Inductive code :=
| CodeString (s : string)
| CodeNumber (n : Z).

(** A thrown value, through the properties the hook reads from it:
    [error.reason], [error.message], [error.code] and [String(error)]. *)
Record JsError := {
  e_reason : option string;
  e_message : option string;
  e_code : option code;
  e_string : string
}.

(** [new Error(msg)] *)
Definition newError (msg : string) : JsError := {|
  e_reason := None;
  e_message := Some msg;
  e_code := None;
  e_string := "Error: " +:+ msg
|}.

(** A string-or-undefined value is truthy when it is a non-empty string. *)
Definition truthy (s : option string) : option string :=
  match s with
  | Some s => if String.eqb s "" then None else Some s
  | None => None
  end.

(** [a || b] on strings *)
Definition orElse (a : option string) (b : string) : string :=
  default b (truthy a).

(** [hay.includes(needle)] *)
Fixpoint includes (needle hay : string) : bool :=
  String.prefix needle hay ||
  match hay with
  | EmptyString => false
  | String _ rest => includes needle rest
  end.

Definition lowerAscii (c : Ascii.ascii) : Ascii.ascii :=
  let n := Ascii.N_of_ascii c in
  if ((65 <=? n) && (n <=? 90))%N then Ascii.ascii_of_N (n + 32) else c.

(** [s.toLowerCase()], on the ASCII letters a handle or an address has. *)
Fixpoint toLowerCase (s : string) : string :=
  match s with
  | EmptyString => EmptyString
  | String c rest => String (lowerAscii c) (toLowerCase rest)
  end.

Fixpoint dropString (n : nat) (s : string) : string :=
  match n, s with
  | O, _ => s
  | S n, String _ rest => dropString n rest
  | S _, EmptyString => EmptyString
  end.

(** [s.replace(pattern, replacement)] with a string pattern: the first
    occurrence only. *)
Fixpoint replaceFirst (pattern replacement s : string) : string :=
  if String.prefix pattern s then
    replacement +:+ dropString (String.length pattern) s
  else
    match s with
    | EmptyString => EmptyString
    | String c rest => String c (replaceFirst pattern replacement rest)
    end.

(** [Number(n)] for a bigint [n]: the double nearest to [n], ties to the
    even significand.  A double keeps 53 significant bits, so the bits
    below them are rounded away; the result is again an integer.  The
    bigints the hook converts are 256-bit words, far below 2^1024, from
    where [Number] returns [Infinity]. *)
Definition Number (n : Z) : Z :=
  let magnitude := Z.abs n in
  let dropped := Z.log2 magnitude - 52 in
  if dropped <=? 0 then n else
  let unit := 2 ^ dropped in
  let significand := magnitude / unit in
  let rest := magnitude mod unit in
  let half := unit / 2 in
  let up := (half <? rest) || ((rest =? half) && Z.odd significand) in
  Z.sgn n * ((if up then significand + 1 else significand) * unit).

(** The decimals of [k] significant digits next to the [n]-digit double
    [x]: the one that [Number] reads back as [x], the closer one when both
    do, the even one when they are as close. *)
Definition roundTrip (x n k : Z) : option Z :=
  let scale := 10 ^ (n - k) in
  let lo := x / scale * scale in
  let hi := lo + scale in
  match Number lo =? x, Number hi =? x with
  | true, true =>
    if x - lo <? hi - x then Some lo
    else if hi - x <? x - lo then Some hi
    else if Z.even (lo / scale) then Some lo else Some hi
  | true, false => Some lo
  | false, true => Some hi
  | false, false => None
  end.

(** The decimal with the fewest significant digits, from [k] on, that reads
    back as [x]; a double needs 17 at most. *)
Fixpoint shortestFrom (fuel : nat) (x n k : Z) : Z :=
  match fuel with
  | O => x
  | S fuel =>
    if n <=? k then x else
    match roundTrip x n k with
    | Some v => v
    | None => shortestFrom fuel x n (k + 1)
    end
  end.

Fixpoint dropZeros (reversed : string) : string :=
  match reversed with
  | String c rest => if String.eqb (String c "") "0" then dropZeros rest else reversed
  | EmptyString => EmptyString
  end.

(** The digits of a decimal without its trailing zeros. *)
Definition significantDigits (digits : string) : string :=
  String.rev (dropZeros (String.rev digits)).

(** An integral double inside a template literal ([Number::toString]).
    Below 2^53 every integer is a double of its own and is printed digit by
    digit.  From there on the digits are those of the shortest decimal that
    reads back as the double, followed by zeros up to 21 digits and in
    exponent form beyond. *)
Definition numberToString (x : Z) : string :=
  if Z.abs x <? 2 ^ 53 then pretty x else
  let magnitude := Z.abs x in
  let n := Z.of_nat (String.length (pretty magnitude)) in
  let digits := pretty (shortestFrom 17 magnitude n 1) in
  let sign := if x <? 0 then "-" else "" in
  if (String.length digits <=? 21)%nat then sign +:+ digits
  else
    let exponent := pretty (Z.of_nat (String.length digits) - 1) in
    match significantDigits digits with
    | String d EmptyString => sign +:+ String d "e+" +:+ exponent
    | String d rest => sign +:+ String d ("." +:+ rest) +:+ "e+" +:+ exponent
    | EmptyString => EmptyString
    end.

(** What a contract read of a [bytes32] may come back as. *)
Inductive BytesLike :=
| BString (s : string)
| BRaw (b : bytes).

(** *** The objects the hook is given *)

(** The result of [encryptedInput.encrypt()]. *)
Record Encrypted := {
  handles : list bytes;
  inputProof : option bytes
}.

Record Keypair := {
  publicKey : bytes;
  privateKey : bytes
}.

Record Domain := {
  d_name : string;
  d_version : string;
  d_chainId : Z;
  d_verifyingContract : string
}.

Record TypedField := {
  f_name : string;
  f_type : string
}.

Record DecryptRequest := {
  m_publicKey : string;
  m_contractAddresses : list string;
  m_startTimestamp : string;
  m_durationDays : string
}.

(** The EIP-712 descriptor that is signed. *)
Record TypedData := {
  td_domain : Domain;
  td_UserDecryptRequestVerification : list TypedField;
  td_message : DecryptRequest
}.

(** The arguments of [instance.userDecrypt]. *)
Record DecryptCall := {
  dc_handleContractPairs : list (string * string);
  dc_privateKey : bytes;
  dc_publicKey : bytes;
  dc_signature : string;
  dc_contractAddresses : list string;
  dc_userAddress : string;
  dc_startTimestamp : string;
  dc_durationDays : string
}.

(** Every method takes the number of effects performed before it, so that
    the same call may be answered differently later; it answers with a
    value or with what it throws. *)
Abbreviation answer A := (JsError + A)%type (only parsing).

(** An [ethers] provider, with the reads of the contract made through it. *)
Record Provider := {
  getBlockNumber : nat -> answer Z;
  getCode : nat -> string -> answer string;
  read_hasInitialized : nat -> string -> string -> answer bool;
  read_getEncryptedMonthlyTotal : nat -> string -> string -> answer BytesLike;
  read_getExpenseRecordCount : nat -> string -> string -> answer Z;
  read_getExpenseRecord : nat -> string -> string -> nat -> answer (Z * string)
}.

(** An [ethers] signer: typed-data signatures, and the [addExpense]
    transaction (with its gas limit) and its confirmation. *)
Record Signer := {
  signTypedData : nat -> TypedData -> answer string;
  send_addExpense : nat -> string -> bytes -> bytes -> string -> Z -> answer string;
  wait : nat -> string -> answer Z
}.

(** The FHEVM instance.  Key generation and the EIP-712 builder are
    capabilities an instance may lack. *)
Record Instance := {
  encrypt32 : nat -> string -> string -> number -> answer Encrypted;
  generateKeypair : option (nat -> answer Keypair);
  createEIP712 : option (nat -> bytes -> list string -> string -> string -> answer TypedData);
  userDecrypt : nat -> DecryptCall -> answer (gmap string Z)
}.

(** Globals: [ethers.hexlify] and [Date.now()]. *)
Record Browser := {
  hexlify : bytes -> answer string;
  now : nat -> Z
}.

(** What the hook closes over: its argument and the values of the wallet
    hooks at the current render. *)
Record Props := {
  contractAddress : option string;
  address : option string;
  chainId : Z;
  ethersSigner : option Signer;
  ethersProvider : option Provider;
  fhevmInstance : option Instance
}.

(** [interface ExpenseRecord] *)
Record ExpenseRecord := {
  timestamp : Z;
  category : string;
  index : nat
}.

(** *** Effects and state *)

(** A call that leaves the hook.  [Encrypt] stands for the three SDK
    calls [createEncryptedInput(contract, user)], [add32(amount)] and
    [encrypt()]; the reads of the contract are the calls made through
    [new ethers.Contract(contract, ABI, provider)]. *)
Inductive Effect :=
| Encrypt (contract user : string) (amount : number)
| GetCode (contract : string)
| GetBlockNumber
| SendAddExpense (contract : string) (handle proof : bytes) (category : string) (gasLimit : Z)
| Wait (txHash : string)
| Sleep (ms : Z)
| HasInitialized (contract user : string)
| GetEncryptedMonthlyTotal (contract user : string)
| GetExpenseRecordCount (contract user : string)
| GetExpenseRecord (contract user : string) (index : nat)
| Hexlify (b : bytes)
| GenerateKeypair
| CreateEIP712 (publicKey : bytes) (contracts : list string) (start duration : string)
| DateNow
| SignTypedData (data : TypedData)
| UserDecrypt (call : DecryptCall).

(** The React state of the hook, then what it wrote with [console.error]
    and [console.warn] and the effects it performed, oldest first.  The
    [console.log] lines of the source only trace progress and are left out;
    so is the [useEffect] that calls [loadEncryptedTotal] on mount. *)
Record Hook := {
  encryptedTotal : option BytesLike;
  decryptedTotal : option Z;
  expenseRecords : list ExpenseRecord;
  isLoading : bool;
  message : option string;
  console : list string;
  effects : list Effect
}.

Definition initial : Hook := {|
  encryptedTotal := None;
  decryptedTotal := None;
  expenseRecords := [];
  isLoading := false;
  message := None;
  console := [];
  effects := []
|}.

(** How an asynchronous function ends: its promise resolves or rejects. *)
Inductive Outcome (A : Type) :=
| Return (a : A)
| Throw (e : JsError).
Arguments Return {A} a.
Arguments Throw {A} e.

Definition M (A : Type) : Type := Hook -> Outcome A * Hook.

#[global] Instance M_ret : MRet M := fun A a h => (Return a, h).

#[global] Instance M_bind : MBind M := fun A B f m h =>
  match m h with
  | (Return a, h') => f a h'
  | (Throw e, h') => (Throw e, h')
  end.

Definition throw {A} (e : JsError) : M A := fun h => (Throw e, h).

(** [try { m } catch (e) { handler e }] *)
Definition tryCatch {A} (m : M A) (handler : JsError -> M A) : M A := fun h =>
  match m h with
  | (Return a, h') => (Return a, h')
  | (Throw e, h') => handler e h'
  end.

(** [try { m } finally { f }] *)
Definition tryFinally {A} (m : M A) (f : M unit) : M A := fun h =>
  match m h with
  | (r, h') =>
    match f h' with
    | (Return _, h'') => (r, h'')
    | (Throw e, h'') => (Throw e, h'')
    end
  end.

Definition setEncryptedTotal (v : option BytesLike) : M unit := fun h =>
  (Return tt, {| encryptedTotal := v; decryptedTotal := decryptedTotal h;
     expenseRecords := expenseRecords h; isLoading := isLoading h;
     message := message h; console := console h; effects := effects h |}).

Definition setDecryptedTotal (v : option Z) : M unit := fun h =>
  (Return tt, {| encryptedTotal := encryptedTotal h; decryptedTotal := v;
     expenseRecords := expenseRecords h; isLoading := isLoading h;
     message := message h; console := console h; effects := effects h |}).

Definition setExpenseRecords (v : list ExpenseRecord) : M unit := fun h =>
  (Return tt, {| encryptedTotal := encryptedTotal h; decryptedTotal := decryptedTotal h;
     expenseRecords := v; isLoading := isLoading h;
     message := message h; console := console h; effects := effects h |}).

Definition setIsLoading (v : bool) : M unit := fun h =>
  (Return tt, {| encryptedTotal := encryptedTotal h; decryptedTotal := decryptedTotal h;
     expenseRecords := expenseRecords h; isLoading := v;
     message := message h; console := console h; effects := effects h |}).

Definition setMessage (v : string) : M unit := fun h =>
  (Return tt, {| encryptedTotal := encryptedTotal h; decryptedTotal := decryptedTotal h;
     expenseRecords := expenseRecords h; isLoading := isLoading h;
     message := Some v; console := console h; effects := effects h |}).

(** [console.error(line, ...)] and [console.warn(line)] *)
Definition consoleError (line : string) : M unit := fun h =>
  (Return tt, {| encryptedTotal := encryptedTotal h; decryptedTotal := decryptedTotal h;
     expenseRecords := expenseRecords h; isLoading := isLoading h;
     message := message h; console := console h ++ [line]; effects := effects h |}).

(** Performing an effect: it is recorded, then answered. *)
Definition perform {A} (e : Effect) (ans : nat -> JsError + A) : M A := fun h =>
  let h' := {| encryptedTotal := encryptedTotal h; decryptedTotal := decryptedTotal h;
     expenseRecords := expenseRecords h; isLoading := isLoading h;
     message := message h; console := console h; effects := effects h ++ [e] |} in
  match ans (length (effects h)) with
  | inl err => (Throw err, h')
  | inr a => (Return a, h')
  end.


(** *** The four operations of the hook *)

Definition hardhatMessage : string :=
  "Cannot connect to Hardhat node. Please ensure 'npx hardhat node' is running on http://localhost:8545".

Definition notDeployedMessage (contract : string) : string :=
  "Contract not deployed at " +:+ contract +:+ ". Please deploy the contract first.".

Definition refreshManuallyMessage : string :=
  "Expense added, but failed to refresh data. Please refresh manually.".

Definition missingRequirementsMessage : string :=
  "Missing requirements for decryption".

Definition addExpensesFirstMessage : string :=
  "You haven't added any expenses yet. Please add expenses first before decrypting.".

Definition notAuthorizedMessage : string :=
  "Decryption failed: You don't have permission to decrypt this handle. Please try adding an expense again or wait a few seconds.".

(** The texts of the six precondition errors of [addExpense], in the order
    the function checks them. *)
Definition preconditionMessages : list string := [
  "Contract address not configured. Please set VITE_CONTRACT_ADDRESS in .env.local";
  "Wallet signer not available. Please ensure your wallet is connected.";
  "FHEVM instance not initialized. Please wait for initialization.";
  "Wallet address not available. Please connect your wallet.";
  "Ethers provider not available.";
  "Expense amount must be greater than 0"
].

(** [codeIs error c]: [error.code === c] *)
Definition codeIs (error : JsError) (c : code) : bool :=
  match e_code error, c with
  | Some (CodeString a), CodeString b => String.eqb a b
  | Some (CodeNumber a), CodeNumber b => a =? b
  | _, _ => false
  end.

(** [typeof v === "string" ? v : ethers.hexlify(v)] *)
Definition asHex (browser : Browser) (v : BytesLike) : M string :=
  match v with
  | BString s => mret s
  | BRaw b => perform (Hexlify b) (fun _ => hexlify browser b)
  end.

Section Operations.

Context (browser : Browser) (props : Props).

(** The [for] loop of [loadExpenseRecords], with [remaining] iterations
    left from index [i].  The counter is a double like every number: it is
    exact below 2^53, which no list of on-chain records reaches. *)
Fixpoint loadRecordsFrom (provider : Provider) (contract user : string)
    (remaining i : nat) (records : list ExpenseRecord) : M (list ExpenseRecord) :=
  match remaining with
  | O => mret records
  | S remaining =>
    r ← perform (GetExpenseRecord contract user i)
          (fun t => read_getExpenseRecord provider t contract user i);
    loadRecordsFrom provider contract user remaining (S i)
      (records ++ [{| timestamp := Number (fst r); category := snd r; index := i |}])
  end.

Definition loadExpenseRecords_try (contract : string) (provider : Provider)
    (user : string) : M unit :=
  recordCount ← perform (GetExpenseRecordCount contract user)
                  (fun t => read_getExpenseRecordCount provider t contract user);
  let count := Number recordCount in
  records ← loadRecordsFrom provider contract user (Z.to_nat count) 0 [];
  setExpenseRecords records.

Definition loadExpenseRecords_catch (error : JsError) : M unit :=
  consoleError "[useExpenseLedger] Error loading expense records:".

Definition loadExpenseRecords : M unit :=
  match truthy (contractAddress props), ethersProvider props, truthy (address props) with
  | Some contract, Some provider, Some user =>
    tryCatch (loadExpenseRecords_try contract provider user) loadExpenseRecords_catch
  | _, _, _ => mret tt
  end.

Definition loadEncryptedTotal_try (contract : string) (provider : Provider)
    (user : string) : M unit :=
  setIsLoading true;;
  reachable ← tryCatch
    (perform GetBlockNumber (getBlockNumber provider);; mret true)
    (fun providerError =>
       if chainId props =? 31337 then
         setMessage hardhatMessage;;
         consoleError "[useExpenseLedger] Hardhat node not accessible:";;
         mret false
       else throw providerError);
  if negb reachable then mret tt else
  contractCode ← perform (GetCode contract) (fun t => getCode provider t contract);
  if String.eqb contractCode "0x" || (String.length contractCode <=? 2)%nat then
    setMessage (notDeployedMessage contract);;
    setEncryptedTotal None
  else
    hasInit ← perform (HasInitialized contract user)
                (fun t => read_hasInitialized provider t contract user);
    if negb hasInit then
      setEncryptedTotal None;;
      setDecryptedTotal None
    else
      encrypted ← perform (GetEncryptedMonthlyTotal contract user)
                    (fun t => read_getEncryptedMonthlyTotal provider t contract user);
      setEncryptedTotal (Some encrypted);;
      loadExpenseRecords.

(** The classification of a caught error in [loadEncryptedTotal]. *)
Definition loadFailureMessage (error : JsError) : string :=
  let errorMessage := orElse (e_message error) (e_string error) in
  if codeIs error (CodeString "UNKNOWN_ERROR") || codeIs error (CodeNumber (-32603)) then
    if chainId props =? 31337 then hardhatMessage
    else "Network error: " +:+ orElse (e_message error) "Failed to connect to blockchain"
  else if from_option (includes "Failed to fetch") false (e_message error) then
    if chainId props =? 31337 then hardhatMessage
    else "Network connection failed. Please check your internet connection and try again."
  else errorMessage.

Definition loadEncryptedTotal_catch (error : JsError) : M unit :=
  consoleError "[useExpenseLedger] Error loading encrypted total:";;
  setMessage ("Error loading total: " +:+ loadFailureMessage error).

Definition loadEncryptedTotal : M unit :=
  match truthy (contractAddress props), ethersProvider props, truthy (address props) with
  | Some contract, Some provider, Some user =>
    tryFinally
      (tryCatch (loadEncryptedTotal_try contract provider user) loadEncryptedTotal_catch)
      (setIsLoading false)
  | _, _, _ => mret tt
  end.

(** A failed precondition of [addExpense]: the message is shown, a line is
    written to the console (except for the amount), the error is thrown. *)
Definition reject {A} (line : option string) (text : string) : M A :=
  let error := newError text in
  setMessage text;;
  match line with Some l => consoleError l | None => mret tt end;;
  throw error.

(** The inner [try] of [addExpense]: the reads after the confirmation. *)
Definition addExpense_refresh (contract : string) (provider : Provider)
    (user : string) : M unit :=
  contractCode ← perform (GetCode contract) (fun t => getCode provider t contract);
  if negb (String.eqb contractCode "") && (2 <? String.length contractCode)%nat then
    hasInit ← perform (HasInitialized contract user)
                (fun t => read_hasInitialized provider t contract user);
    if hasInit : bool then
      encrypted ← perform (GetEncryptedMonthlyTotal contract user)
                    (fun t => read_getEncryptedMonthlyTotal provider t contract user);
      handle ← asHex browser encrypted;
      let normalizedHandle := toLowerCase handle in
      setEncryptedTotal (Some (BString normalizedHandle));;
      loadExpenseRecords;;
      setMessage "Expense added successfully! Wait a moment, then you can decrypt your total."
    else
      consoleError "[useExpenseLedger] User not initialized after adding expense";;
      setMessage "Expense added, but initialization check failed. Please try refreshing."
  else mret tt.

Definition addExpense_refresh_catch (err : JsError) : M unit :=
  consoleError "[useExpenseLedger] Error reloading data:";;
  setMessage refreshManuallyMessage.

(** The outer [try] of [addExpense] up to the settling delay: encryption,
    the deployment check, the transaction and its confirmation. *)
Definition addExpense_submit (contract : string) (signer : Signer) (instance : Instance)
    (user : string) (provider : Provider) (amount : number) (category : string) : M unit :=
  setIsLoading true;;
  setMessage "Encrypting expense amount...";;
  encrypted ← perform (Encrypt contract user amount)
                (fun t => encrypt32 instance t contract user amount);
  setMessage "Submitting to blockchain...";;
  contractCode ← perform (GetCode contract) (fun t => getCode provider t contract);
  if String.eqb contractCode "0x" || (String.length contractCode <=? 2)%nat then
    throw (newError (notDeployedMessage contract))
  else
    match head (handles encrypted), inputProof encrypted with
    | Some encryptedAmountHandle, Some (b :: proof) =>
      tx ← perform (SendAddExpense contract encryptedAmountHandle (b :: proof) category 5000000)
             (fun t => send_addExpense signer t contract encryptedAmountHandle (b :: proof)
                         category 5000000);
      receipt ← perform (Wait tx) (fun t => wait signer t tx);
      setMessage "Expense added successfully. Refreshing data...";;
      perform (Sleep 2000) (fun _ => inr tt)
    | _, _ => throw (newError "Encryption failed - missing handle or proof")
    end.

Definition addExpense_try (contract : string) (signer : Signer) (instance : Instance)
    (user : string) (provider : Provider) (amount : number) (category : string) : M unit :=
  addExpense_submit contract signer instance user provider amount category;;
  match truthy (contractAddress props), ethersProvider props, truthy (address props) with
  | Some contract, Some provider, Some user =>
    tryCatch (addExpense_refresh contract provider user) addExpense_refresh_catch
  | _, _, _ => mret tt
  end.

Definition addExpense_catch (error : JsError) : M unit :=
  let errorMessage := orElse (e_reason error) (orElse (e_message error) (e_string error)) in
  setMessage ("Error: " +:+ errorMessage);;
  consoleError "[useExpenseLedger] Error adding expense:";;
  throw error.

Definition addExpense (amount : number) (category : string) : M unit :=
  match truthy (contractAddress props) with
  | None =>
    reject (Some "[useExpenseLedger] Missing contract address")
      "Contract address not configured. Please set VITE_CONTRACT_ADDRESS in .env.local"
  | Some contract =>
  match ethersSigner props with
  | None =>
    reject (Some "[useExpenseLedger] Missing ethers signer")
      "Wallet signer not available. Please ensure your wallet is connected."
  | Some signer =>
  match fhevmInstance props with
  | None =>
    reject (Some "[useExpenseLedger] Missing FHEVM instance")
      "FHEVM instance not initialized. Please wait for initialization."
  | Some instance =>
  match truthy (address props) with
  | None =>
    reject (Some "[useExpenseLedger] Missing address")
      "Wallet address not available. Please connect your wallet."
  | Some user =>
  match ethersProvider props with
  | None =>
    reject (Some "[useExpenseLedger] Missing ethers provider")
      "Ethers provider not available."
  | Some provider =>
  if leZero amount then
    reject None "Expense amount must be greater than 0"
  else
    tryFinally
      (tryCatch (addExpense_try contract signer instance user provider amount category)
         addExpense_catch)
      (setIsLoading false)
  end end end end end.

Definition decryptTotal_try (contract : string) (provider : Provider) (instance : Instance)
    (signer : Signer) (user : string) : M unit :=
  setMessage "Checking permissions and fetching latest encrypted total...";;
  hasInit ← perform (HasInitialized contract user)
              (fun t => read_hasInitialized provider t contract user);
  if negb hasInit then throw (newError addExpensesFirstMessage) else
  latestEncryptedTotal ← perform (GetEncryptedMonthlyTotal contract user)
                           (fun t => read_getEncryptedMonthlyTotal provider t contract user);
  handle ← asHex browser latestEncryptedTotal;
  let handle :=
    if negb (String.eqb handle "") && String.prefix "0x" handle
    then toLowerCase handle else handle in
  if String.eqb handle "" || String.eqb handle "0x"
     || negb (String.length handle =? 66)%nat then
    throw (newError ("Invalid handle format: " +:+ handle
                     +:+ ". Expected 66 characters (0x + 64 hex chars)"))
  else
  setEncryptedTotal (Some (BString handle));;
  setMessage "Decrypting monthly total...";;
  let handleContractPairs := [(handle, contract)] in
  keypair ←
    match generateKeypair instance with
    | Some generate => perform GenerateKeypair generate
    | None => mret {| publicKey := replicate 32 Byte.x00;
                      privateKey := replicate 32 Byte.x00 |}
    end;
  let contractAddresses := [contract] in
  millis ← perform DateNow (fun t => inr (now browser t));
  let startTimestamp := pretty (millis / 1000) in
  let durationDays := "10" in
  eip712 ←
    match createEIP712 instance with
    | Some create =>
      perform (CreateEIP712 (publicKey keypair) contractAddresses startTimestamp durationDays)
        (fun t => create t (publicKey keypair) contractAddresses startTimestamp durationDays)
    | None =>
      publicKeyHex ← perform (Hexlify (publicKey keypair))
                       (fun _ => hexlify browser (publicKey keypair));
      mret {|
        td_domain := {| d_name := "FHEVM"; d_version := "1"; d_chainId := chainId props;
                        d_verifyingContract := contract |};
        td_UserDecryptRequestVerification := [
          {| f_name := "publicKey"; f_type := "bytes" |};
          {| f_name := "contractAddresses"; f_type := "address[]" |};
          {| f_name := "startTimestamp"; f_type := "string" |};
          {| f_name := "durationDays"; f_type := "string" |} ];
        td_message := {| m_publicKey := publicKeyHex;
                         m_contractAddresses := contractAddresses;
                         m_startTimestamp := startTimestamp;
                         m_durationDays := durationDays |}
      |}
    end;
  signature ← perform (SignTypedData eip712) (fun t => signTypedData signer t eip712);
  let signatureForDecrypt :=
    if chainId props =? 31337 then replaceFirst "0x" "" signature else signature in
  let request := {|
    dc_handleContractPairs := handleContractPairs;
    dc_privateKey := privateKey keypair;
    dc_publicKey := publicKey keypair;
    dc_signature := signatureForDecrypt;
    dc_contractAddresses := contractAddresses;
    dc_userAddress := user;
    dc_startTimestamp := startTimestamp;
    dc_durationDays := durationDays |} in
  decryptedResult ← perform (UserDecrypt request) (fun t => userDecrypt instance t request);
  let decrypted := Number (default 0 (decryptedResult !! handle)) in
  setDecryptedTotal (Some decrypted);;
  setMessage ("Decrypted monthly total: " +:+ numberToString decrypted).

(** The message [decryptTotal] shows for a caught error. *)
Definition decryptFailureMessage (error : JsError) : string :=
  let errorMessage := orElse (e_message error) (e_string error) in
  if includes "not authorized" errorMessage || includes "authorized" errorMessage
  then notAuthorizedMessage
  else "Error decrypting: " +:+ errorMessage.

Definition decryptTotal_catch (error : JsError) : M unit :=
  consoleError "[useExpenseLedger] Error decrypting total:";;
  setMessage (decryptFailureMessage error);;
  throw error.

Definition decryptTotal : M unit :=
  match truthy (contractAddress props), ethersProvider props, fhevmInstance props,
        ethersSigner props, truthy (address props) with
  | Some contract, Some provider, Some instance, Some signer, Some user =>
    tryCatch (decryptTotal_try contract provider instance signer user) decryptTotal_catch
  | _, _, _, _, _ => setMessage missingRequirementsMessage
  end.

End Operations.

End Client.

(** ** Sample wallets and nodes for the client hook *)
Module ClientSamples.
Import Client.

(** What a failed [fetch] throws. *)
Definition offline : JsError := {|
  e_reason := None;
  e_message := Some "Failed to fetch";
  e_code := None;
  e_string := "TypeError: Failed to fetch"
|}.

Definition ledger : string := "0x5FbDB2315678afecb367f032d93F642f64180aa3".
Definition account : string := "0x70997970C51812dc3A010C7d01b50e0d17dc79C8".

Definition totalHandle : string :=
  "0x9a3f00000000000000000000000000000000000000000000000000aa36a70400".

(** A node on which the ledger is deployed and the account has one record. *)
Definition node : Provider := {|
  getBlockNumber _ := inr 12;
  getCode _ _ := inr "0x6080604052";
  read_hasInitialized _ _ _ := inr true;
  read_getEncryptedMonthlyTotal _ _ _ := inr (BString totalHandle);
  read_getExpenseRecordCount _ _ _ := inr 1;
  read_getExpenseRecord _ _ _ _ := inr (1700000000, "materials")
|}.

(** The same node before the account's first expense. *)
Definition freshNode : Provider := {|
  getBlockNumber _ := inr 12;
  getCode _ _ := inr "0x6080604052";
  read_hasInitialized _ _ _ := inr false;
  read_getEncryptedMonthlyTotal _ _ _ := inr (BString "0x0000000000000000000000000000000000000000000000000000000000000000");
  read_getExpenseRecordCount _ _ _ := inr 0;
  read_getExpenseRecord _ _ _ _ := inl (newError "Record index out of bounds")
|}.

(** A node that cannot be reached. *)
Definition deadNode : Provider := {|
  getBlockNumber _ := inl offline;
  getCode _ _ := inl offline;
  read_hasInitialized _ _ _ := inl offline;
  read_getEncryptedMonthlyTotal _ _ _ := inl offline;
  read_getExpenseRecordCount _ _ _ := inl offline;
  read_getExpenseRecord _ _ _ _ := inl offline
|}.


(** A node on which only the reads of the record list fail. *)
Definition recordlessNode : Provider := {|
  getBlockNumber _ := inr 12;
  getCode _ _ := inr "0x6080604052";
  read_hasInitialized _ _ _ := inr true;
  read_getEncryptedMonthlyTotal _ _ _ := inr (BString totalHandle);
  read_getExpenseRecordCount _ _ _ := inl offline;
  read_getExpenseRecord _ _ _ _ := inl offline
|}.

Definition wallet : Signer := {|
  signTypedData _ _ := inr "0x1b2c";
  send_addExpense _ _ _ _ _ _ := inr "0x7e57";
  wait _ _ := inr 13
|}.

(** A wallet whose user rejects the transaction. *)
Definition refusingWallet : Signer := {|
  signTypedData _ _ := inl (newError "user rejected action");
  send_addExpense _ _ _ _ _ _ := inl {|
    e_reason := Some "rejected"; e_message := Some "user rejected action";
    e_code := Some (CodeString "ACTION_REJECTED"); e_string := "Error: user rejected action" |};
  wait _ _ := inr 13
|}.

Definition relayer : Instance := {|
  encrypt32 _ _ _ _ := inr {| handles := [[Byte.x9a; Byte.x3f]]; inputProof := Some [Byte.x01] |};
  generateKeypair := None;
  createEIP712 := None;
  userDecrypt _ _ := inr {[ totalHandle := 1500 ]}
|}.

Definition browser : Browser := {|
  hexlify _ := inr "0x00";
  now _ := 1700000000000
|}.

Definition connected (provider : Provider) (signer : Signer) : Props := {|
  contractAddress := Some ledger;
  address := Some account;
  chainId := 11155111;
  ethersSigner := Some signer;
  ethersProvider := Some provider;
  fhevmInstance := Some relayer
|}.

(** The hook before [VITE_CONTRACT_ADDRESS] is set. *)
Definition unconfigured : Props := {|
  contractAddress := None;
  address := Some account;
  chainId := 11155111;
  ethersSigner := Some wallet;
  ethersProvider := Some node;
  fhevmInstance := Some relayer
|}.

End ClientSamples.

(** ** Views of a list of transactions *)
Module LedgerViews.
Import Ledger.

(** The two events an accepted [addExpense] emits, in order. *)
Definition eventsOf (t : Tx) : list Event :=
  [ExpenseAdded (msg_sender (tx_env t)) (block_timestamp (tx_env t)) (tx_category t);
   MonthlyTotalUpdated (msg_sender (tx_env t)) (block_timestamp (tx_env t))].

(** The transactions whose input proof verifies. *)
Definition accepted (fhe : FHE) (this : address) (txs : list Tx) : list Tx :=
  filter (fun t => is_Some (decoded fhe this t)) txs.

(** The transactions sent by one account. *)
Definition sentBy (user : address) (txs : list Tx) : list Tx :=
  filter (fun t => msg_sender (tx_env t) = user) txs.

(** What an indexer reads for one account from the [ExpenseAdded] events. *)
Definition indexed (user : address) (log : list Event) : list (uint256 * string) :=
  omap (fun e =>
    match e with
    | ExpenseAdded v time cat =>
      if bool_decide (v = user) then Some (time, cat) else None
    | MonthlyTotalUpdated _ _ => None
    end) log.

End LedgerViews.

(** ** What a run of the hook leaves behind *)
Module ClientTrace.
Import Client.

(** The reads made through the provider. *)
Definition isRead (e : Effect) : bool :=
  match e with
  | GetCode _ | GetBlockNumber | HasInitialized _ _ | GetEncryptedMonthlyTotal _ _
  | GetExpenseRecordCount _ _ | GetExpenseRecord _ _ _ => true
  | _ => false
  end.

(** The [addExpense] transaction handed to the wallet. *)
Definition isSend (e : Effect) : bool :=
  match e with SendAddExpense _ _ _ _ _ => true | _ => false end.

(** What [decryptTotal] may perform: reads and the local and remote steps
    of a decryption, never an encryption, a transaction, a confirmation or
    the settling delay. *)
Definition isDecryptStep (e : Effect) : bool :=
  match e with
  | Encrypt _ _ _ | SendAddExpense _ _ _ _ _ | Wait _ | Sleep _ => false
  | _ => true
  end.

(** What [addExpense] may perform: never a typed-data signature, a key
    generation or a decryption. *)
Definition isAddStep (e : Effect) : bool :=
  match e with
  | SignTypedData _ | UserDecrypt _ | GenerateKeypair | CreateEIP712 _ _ _ _ | DateNow => false
  | _ => true
  end.

(** A program preserves a relation between the state it starts from and
    the state it ends in, however it ends. *)
Definition preserves {A} (R : Hook -> Hook -> Prop) (m : M A) : Prop :=
  forall h, R h (snd (m h)).

(** The run kept the effects performed before it and added only effects
    that satisfy [Q]. *)
Definition addsOnly (Q : Effect -> bool) (h h' : Hook) : Prop :=
  exists new, effects h' = effects h ++ new /\ Forall (fun e => Q e = true) new.

(** The run left a part of the state as it was. *)
Definition same {X} (f : Hook -> X) (h h' : Hook) : Prop := f h' = f h.

(** The run added effects of which at most [n] are transactions. *)
Definition sendsAtMost (n : nat) (h h' : Hook) : Prop :=
  exists new, effects h' = effects h ++ new /\ (length (filter (fun e => isSend e = true) new) <= n)%nat.

(** The hook can read: it has a contract address, a provider and an
    account address. *)
Definition canRead (props : Props) (contract : string) (provider : Provider)
    (user : string) : Prop :=
  truthy (contractAddress props) = Some contract /\
  ethersProvider props = Some provider /\
  truthy (address props) = Some user.

(** The hook can write and decrypt: it can read and has a signer and an
    FHEVM instance. *)
Definition canWrite (props : Props) (contract : string) (signer : Signer)
    (instance : Instance) (user : string) (provider : Provider) : Prop :=
  canRead props contract provider user /\
  ethersSigner props = Some signer /\
  fhevmInstance props = Some instance.

(** A run of [addExpense] from [h] that fails fast with [text]: it throws
    [new Error(text)], shows the text, and has performed no effect. *)
Definition failsFast (text : string) (h : Hook) (run : Outcome unit * Hook) : Prop :=
  fst run = Throw (newError text) /\
  message (snd run) = Some text /\
  effects (snd run) = effects h.

(** [Number.isSafeInteger]: the integers on which [Number(n)] of a bigint is
    [n] itself, and which a template literal prints digit by digit. *)
Definition isSafeInteger (n : Z) : Prop := Z.abs n <= 2 ^ 53 - 1.

(** A [uint256]: what the ABI decoder returns for a word of the contract,
    and the largest clear value a decryption returns. *)
Definition isUint256 (n : Z) : Prop := 0 <= n < 2 ^ 256.

(** A state with more effects recorded. *)
Definition withEffects (h : Hook) (new : list Effect) : Hook := {|
  encryptedTotal := encryptedTotal h; decryptedTotal := decryptedTotal h;
  expenseRecords := expenseRecords h; isLoading := isLoading h;
  message := message h; console := console h; effects := effects h ++ new |}.

End ClientTrace.

(** ** The page and the dialog that call the hook *)
Module Page.
Import Client.

Inductive ToastKind :=
| ToastError
| ToastSuccess
| ToastInfo.

(** A call of [toast.error], [toast.success] or [toast.info]. *)
Record Toast := {
  toast_kind : ToastKind;
  toast_title : string;
  toast_description : option string
}.

(** The effect of the page on the hook's [message]: which toast a message
    is shown as. *)
Definition messageToast (message : option string) : option Toast :=
  match truthy message with
  | None => None
  | Some message =>
    Some (if includes "Error" message || includes "failed" message then
            {| toast_kind := ToastError; toast_title := message; toast_description := None |}
          else if includes "successfully" message then
            {| toast_kind := ToastSuccess; toast_title := message; toast_description := None |}
          else
            {| toast_kind := ToastInfo; toast_title := message; toast_description := None |})
  end.

(** What the page holds: the state of the hook, the toasts its handlers
    have shown (the toasts of the effect on [message] are given by
    [messageToast]), whether the dialog is open, and the three state
    variables of the dialog. *)
Record View := {
  hook : Hook;
  toasts : list Toast;
  showNewExpense : bool;
  form_amount : string;
  form_category : string;
  form_error : option string
}.

Definition P (A : Type) : Type := View -> Outcome A * View.

#[global] Instance P_ret : MRet P := fun A a v => (Return a, v).

#[global] Instance P_bind : MBind P := fun A B f m v =>
  match m v with
  | (Return a, v') => f a v'
  | (Throw e, v') => (Throw e, v')
  end.

(** [try { m } catch (e) { handler e }] in a handler of the page *)
Definition tryCatchP {A} (m : P A) (handler : JsError -> P A) : P A := fun v =>
  match m v with
  | (Return a, v') => (Return a, v')
  | (Throw e, v') => handler e v'
  end.

(** A call of an operation of the hook. *)
Definition liftHook {A} (m : M A) : P A := fun v =>
  match m (hook v) with
  | (r, h') =>
    (r, {| hook := h'; toasts := toasts v; showNewExpense := showNewExpense v;
           form_amount := form_amount v; form_category := form_category v;
           form_error := form_error v |})
  end.

Definition toast (t : Toast) : P unit := fun v =>
  (Return tt, {| hook := hook v; toasts := toasts v ++ [t];
     showNewExpense := showNewExpense v; form_amount := form_amount v;
     form_category := form_category v; form_error := form_error v |}).

Definition setShowNewExpense (b : bool) : P unit := fun v =>
  (Return tt, {| hook := hook v; toasts := toasts v; showNewExpense := b;
     form_amount := form_amount v; form_category := form_category v;
     form_error := form_error v |}).

Definition setAmount (s : string) : P unit := fun v =>
  (Return tt, {| hook := hook v; toasts := toasts v; showNewExpense := showNewExpense v;
     form_amount := s; form_category := form_category v; form_error := form_error v |}).

Definition setCategory (s : string) : P unit := fun v =>
  (Return tt, {| hook := hook v; toasts := toasts v; showNewExpense := showNewExpense v;
     form_amount := form_amount v; form_category := s; form_error := form_error v |}).

Definition setError (e : option string) : P unit := fun v =>
  (Return tt, {| hook := hook v; toasts := toasts v; showNewExpense := showNewExpense v;
     form_amount := form_amount v; form_category := form_category v; form_error := e |}).

(** [isNaN(x)] *)
Definition isNaN (x : number) : bool :=
  match x with NaN => true | _ => false end.

(** A number or [undefined] inside a template literal. *)
Definition shown (v : option Z) : string :=
  match v with
  | Some n => numberToString n
  | None => "undefined"
  end.

Definition addedToast : Toast := {|
  toast_kind := ToastSuccess;
  toast_title := "Expense added successfully!";
  toast_description := Some "Your expense has been encrypted and stored on-chain."
|}.

Definition addFailedToast (error : JsError) : Toast := {|
  toast_kind := ToastError;
  toast_title := "Failed to add expense";
  toast_description := Some (orElse (e_message error) "Please try again.")
|}.

Definition decryptedToast (rendered : option Z) : Toast := {|
  toast_kind := ToastSuccess;
  toast_title := "Monthly total decrypted!";
  toast_description := Some ("Total: " +:+ shown rendered)
|}.

Definition decryptFailedToast (error : JsError) : Toast := {|
  toast_kind := ToastError;
  toast_title := "Failed to decrypt total";
  toast_description := Some (orElse (e_message error) "Please try again.")
|}.

(** The Decrypt button of the page: it is rendered when there is an
    encrypted total, and disabled while loading or once a total has been
    decrypted. *)
Definition decryptButtonEnabled (h : Hook) : bool :=
  match encryptedTotal h with
  | None | Some (BString EmptyString) => false
  | Some _ => negb (isLoading h || bool_decide (decryptedTotal h <> None))
  end.

Section Index.

Context (browser : Browser) (props : Props).

Definition handleAddExpense (amount : number) (category : string) : P unit :=
  tryCatchP
    (liftHook (addExpense browser props amount category);;
     toast addedToast)
    (fun error => toast (addFailedToast error)).

(** [decryptedTotal] in the handler is the value of the render the handler
    was made in: the one held when the handler is called. *)
Definition handleDecryptTotal : P unit := fun v =>
  let rendered := decryptedTotal (hook v) in
  tryCatchP
    (liftHook (decryptTotal browser props);;
     toast (decryptedToast rendered))
    (fun error => toast (decryptFailedToast error)) v.

End Index.

(** [handleSubmit] of the dialog; [parseFloat] is the JavaScript function,
    [onSubmit] and [onOpenChange] are the dialog's props.  The amount and
    the category are those of the render the handler was made in;
    [e.preventDefault()] has no effect on this state. *)
Definition handleSubmit (parseFloat : string -> number)
    (onSubmit : number -> string -> P unit) (onOpenChange : bool -> P unit) : P unit :=
  fun v =>
  let amount := form_amount v in
  let category := form_category v in
  (setError None;;
   let amountNum := parseFloat amount in
   if isNaN amountNum || leZero amountNum then
     setError (Some "Please enter a valid amount greater than 0")
   else if String.eqb category "" then
     setError (Some "Please select a category")
   else
     tryCatchP
       (onSubmit amountNum category;;
        setAmount "";;
        setCategory "materials";;
        onOpenChange false)
       (fun err => setError (Some (orElse (e_message err) "Failed to add expense")))) v.

(** The dialog as the page renders it: [onSubmit] is [handleAddExpense],
    [onOpenChange] is [setShowNewExpense]. *)
Definition submitNewExpense (browser : Browser) (props : Props)
    (parseFloat : string -> number) : P unit :=
  handleSubmit parseFloat (handleAddExpense browser props) setShowNewExpense.

End Page.

(** ** A sample page *)
Module PageSamples.
Import Client ClientSamples Page.

(** [parseFloat] on the few inputs the samples type. *)
Definition typed (s : string) : number :=
  if String.eqb s "1000" then Finite 1000
  else if String.eqb s "0" then Finite 0
  else if String.eqb s "-5" then Finite (-5)
  else NaN.

Definition opened (amount : string) (h : Hook) : View := {|
  hook := h;
  toasts := [];
  showNewExpense := true;
  form_amount := amount;
  form_category := "materials";
  form_error := None
|}.

(** The hook after a total of 1500 was decrypted. *)
Definition decrypted : Hook :=
  snd (decryptTotal browser (connected node wallet) initial).

(** A node that has no code at the ledger's address. *)
Definition emptyNode : Provider := {|
  getBlockNumber _ := inr 12;
  getCode _ _ := inr "0x";
  read_hasInitialized _ _ _ := inl (newError "could not decode result data");
  read_getEncryptedMonthlyTotal _ _ _ := inl (newError "could not decode result data");
  read_getExpenseRecordCount _ _ _ := inl (newError "could not decode result data");
  read_getExpenseRecord _ _ _ _ := inl (newError "could not decode result data")
|}.

(** A node whose contract answers with a handle that is too short. *)
Definition shortHandleNode : Provider := {|
  getBlockNumber _ := inr 12;
  getCode _ _ := inr "0x6080604052";
  read_hasInitialized _ _ _ := inr true;
  read_getEncryptedMonthlyTotal _ _ _ := inr (BString "0x9A3F");
  read_getExpenseRecordCount _ _ _ := inr 1;
  read_getExpenseRecord _ _ _ _ := inr (1700000000, "materials")
|}.

(** The hook on the local development chain with its node stopped. *)
Definition localStopped : Props := {|
  contractAddress := Some ledger;
  address := Some account;
  chainId := 31337;
  ethersSigner := Some wallet;
  ethersProvider := Some deadNode;
  fhevmInstance := Some relayer
|}.

(** An FHEVM instance whose encryption comes back with an empty proof, and
    the hook connected to it. *)
Definition prooflessRelayer : Instance := {|
  encrypt32 _ _ _ _ := inr {| handles := [[Byte.x9a; Byte.x3f]]; inputProof := Some [] |};
  generateKeypair := None;
  createEIP712 := None;
  userDecrypt _ _ := inr ∅
|}.

Definition proofless : Props := {|
  contractAddress := Some ledger;
  address := Some account;
  chainId := 11155111;
  ethersSigner := Some wallet;
  ethersProvider := Some node;
  fhevmInstance := Some prooflessRelayer
|}.

(** The hook while the FHEVM instance is still loading. *)
Definition loading : Props := {|
  contractAddress := Some ledger;
  address := Some account;
  chainId := 11155111;
  ethersSigner := Some wallet;
  ethersProvider := Some node;
  fhevmInstance := None
|}.

End PageSamples.

(** ** Properties of the contract *)
Module LedgerProofs.
Import Ledger.

(** *** Reading a mapping after a write *)

Lemma totalOf_setTotal u v h s :
  totalOf (setTotal u h s) v = if decide (u = v) then h else totalOf s v.
Proof.
  unfold totalOf, setTotal; simpl. rewrite lookup_insert.
  by destruct (decide (u = v)).
Qed.

Lemma initializedOf_setInitialized u v b s :
  initializedOf (setInitialized u b s) v = if decide (u = v) then b else initializedOf s v.
Proof.
  unfold initializedOf, setInitialized; simpl. rewrite lookup_insert.
  by destruct (decide (u = v)).
Qed.

Lemma recordsOf_pushRecord u v r s :
  recordsOf (pushRecord u r s) v =
  if decide (u = v) then recordsOf s u ++ [r] else recordsOf s v.
Proof.
  unfold recordsOf at 1. unfold pushRecord; simpl. rewrite lookup_insert.
  by destruct (decide (u = v)).
Qed.

Section Steps.

Context (fhe : FHE) (this : address).

Lemma call_decoded t s :
  call fhe this t s =
  match decoded fhe this t with
  | None => Revert ProofRejected
  | Some amount =>
    let sender := msg_sender (tx_env t) in
    let s1 :=
      if negb (initializedOf s sender) then
        setInitialized sender true (setTotal sender amount s)
      else setTotal sender (add fhe (totalOf s sender) amount) s in
    let s2 := pushRecord sender (recordOf t) s1 in
    let s3 := allowThis this (totalOf s2 sender) s2 in
    let s4 := allow (totalOf s3 sender) sender s3 in
    Ok (emit (MonthlyTotalUpdated sender (block_timestamp (tx_env t)))
          (emit (ExpenseAdded sender (block_timestamp (tx_env t)) (tx_category t)) s4))
  end.
Proof. reflexivity. Qed.

(** A transaction whose proof is rejected changes nothing. *)
Lemma transact_rejected t s :
  decoded fhe this t = None -> transact fhe this s t = s.
Proof. intros H. unfold transact. rewrite call_decoded, H. reflexivity. Qed.

(** The three mappings at the sender after an accepted transaction. *)
Lemma transact_sender t s amount :
  decoded fhe this t = Some amount ->
  let u := msg_sender (tx_env t) in
  let s' := transact fhe this s t in
  totalOf s' u = (if initializedOf s u then add fhe (totalOf s u) amount else amount) /\
  initializedOf s' u = true /\
  recordsOf s' u = recordsOf s u ++ [recordOf t].
Proof.
  intros H u s'. subst s'. unfold transact. rewrite call_decoded, H. fold u.
  cbv zeta. destruct (initializedOf s u) eqn:Hi; simpl negb; cbv iota.
  - repeat split.
    + change (totalOf (pushRecord u (recordOf t) (setTotal u (add fhe (totalOf s u) amount) s)) u
              = add fhe (totalOf s u) amount).
      change (totalOf (setTotal u (add fhe (totalOf s u) amount) s) u = add fhe (totalOf s u) amount).
      rewrite totalOf_setTotal. by rewrite decide_True.
    + exact Hi.
    + change (recordsOf (pushRecord u (recordOf t) (setTotal u (add fhe (totalOf s u) amount) s)) u
              = recordsOf s u ++ [recordOf t]).
      rewrite recordsOf_pushRecord. by rewrite decide_True.
  - repeat split.
    + change (totalOf (setTotal u amount s) u = amount).
      rewrite totalOf_setTotal. by rewrite decide_True.
    + change (initializedOf (setInitialized u true (setTotal u amount s)) u = true).
      rewrite initializedOf_setInitialized. by rewrite decide_True.
    + change (recordsOf (pushRecord u (recordOf t) (setInitialized u true (setTotal u amount s))) u
              = recordsOf s u ++ [recordOf t]).
      rewrite recordsOf_pushRecord. by rewrite decide_True.
Qed.

(** The three mappings at every other account are untouched. *)
Lemma transact_other t s v :
  msg_sender (tx_env t) <> v ->
  let s' := transact fhe this s t in
  totalOf s' v = totalOf s v /\
  initializedOf s' v = initializedOf s v /\
  recordsOf s' v = recordsOf s v.
Proof.
  intros Hne s'. subst s'. unfold transact. rewrite call_decoded.
  destruct (decoded fhe this t) as [amount|]; [|done].
  set (u := msg_sender (tx_env t)) in *.
  cbv zeta. destruct (initializedOf s u) eqn:Hi; simpl negb; cbv iota.
  - repeat split.
    + change (totalOf (setTotal u (add fhe (totalOf s u) amount) s) v = totalOf s v).
      rewrite totalOf_setTotal. by rewrite decide_False.
    + change (recordsOf (pushRecord u (recordOf t) (setTotal u (add fhe (totalOf s u) amount) s)) v
              = recordsOf s v).
      rewrite recordsOf_pushRecord. by rewrite decide_False.
  - repeat split.
    + change (totalOf (setTotal u amount s) v = totalOf s v).
      rewrite totalOf_setTotal. by rewrite decide_False.
    + change (initializedOf (setInitialized u true (setTotal u amount s)) v = initializedOf s v).
      rewrite initializedOf_setInitialized. by rewrite decide_False.
    + change (recordsOf (pushRecord u (recordOf t) (setInitialized u true (setTotal u amount s))) v
              = recordsOf s v).
      rewrite recordsOf_pushRecord. by rewrite decide_False.
Qed.

(** Authorizations are only ever added. *)
Lemma transact_acl_grows t s : acl s ⊆ acl (transact fhe this s t).
Proof.
  unfold transact. rewrite call_decoded.
  destruct (decoded fhe this t) as [amount|]; [|done].
  cbv zeta. destruct (initializedOf s (msg_sender (tx_env t))); simpl; set_solver.
Qed.

(** After an accepted transaction the sender's new total may be used by
    the contract and decrypted by the sender. *)
Lemma transact_allows t s amount :
  decoded fhe this t = Some amount ->
  let u := msg_sender (tx_env t) in
  let s' := transact fhe this s t in
  (totalOf s' u, u) ∈ acl s' /\ (totalOf s' u, this) ∈ acl s'.
Proof.
  intros H u s'. subst s'. unfold transact. rewrite call_decoded, H. fold u.
  cbv zeta. destruct (initializedOf s u); simpl; unfold totalOf; simpl; set_solver.
Qed.

(** *** Sequences of transactions *)

Lemma addsOf_cons u t txs :
  addsOf fhe this u (t :: txs) =
  if bool_decide (msg_sender (tx_env t) = u) then
    match decoded fhe this t with
    | Some h => (t, h) :: addsOf fhe this u txs
    | None => addsOf fhe this u txs
    end
  else addsOf fhe this u txs.
Proof.
  unfold addsOf; simpl. destruct (bool_decide _); [|done].
  by destruct (decoded fhe this t).
Qed.

(** Every transaction is one of three kinds for a given account. *)
Lemma tx_cases u t :
  (msg_sender (tx_env t) <> u) \/
  (msg_sender (tx_env t) = u /\ decoded fhe this t = None) \/
  (msg_sender (tx_env t) = u /\ exists h, decoded fhe this t = Some h).
Proof.
  destruct (decide (msg_sender (tx_env t) = u)) as [->|]; [right|by left].
  destruct (decoded fhe this t); eauto.
Qed.

(** The records of an account are the records it had, then one record per
    successful add of that account, in order. *)
Lemma records_fold u txs : forall s,
  recordsOf (fold_left (transact fhe this) txs s) u =
  recordsOf s u ++ map (fun a => recordOf (fst a)) (addsOf fhe this u txs).
Proof.
  induction txs as [|t txs IH]; intros s; simpl fold_left.
  - by rewrite app_nil_r.
  - rewrite IH, addsOf_cons.
    destruct (tx_cases u t) as [Hne|[[Hu Hd]|[Hu [h Hd]]]].
    + rewrite bool_decide_eq_false_2 by done.
      by destruct (transact_other t s u Hne) as (_ & _ & ->).
    + rewrite bool_decide_eq_true_2, Hd by done.
      by rewrite transact_rejected.
    + rewrite bool_decide_eq_true_2, Hd by done.
      destruct (transact_sender t s h Hd) as (_ & _ & Hr).
      rewrite Hu in Hr. rewrite Hr. simpl. by rewrite <- app_assoc.
Qed.

(** The flag of an account is set once the account had a successful add. *)
Lemma initialized_fold u txs : forall s,
  initializedOf (fold_left (transact fhe this) txs s) u =
  initializedOf s u || match addsOf fhe this u txs with [] => false | _ => true end.
Proof.
  induction txs as [|t txs IH]; intros s; simpl fold_left.
  - by rewrite orb_false_r.
  - rewrite IH, addsOf_cons.
    destruct (tx_cases u t) as [Hne|[[Hu Hd]|[Hu [h Hd]]]].
    + rewrite bool_decide_eq_false_2 by done.
      by destruct (transact_other t s u Hne) as (_ & -> & _).
    + rewrite bool_decide_eq_true_2, Hd by done.
      by rewrite transact_rejected.
    + rewrite bool_decide_eq_true_2, Hd by done.
      destruct (transact_sender t s h Hd) as (_ & Hi & _).
      rewrite Hu in Hi. rewrite Hi. simpl. by rewrite orb_true_r.
Qed.

(** Without a successful add of an account, its total is the one it had. *)
Lemma total_fold_none u txs : forall s,
  addsOf fhe this u txs = [] ->
  totalOf (fold_left (transact fhe this) txs s) u = totalOf s u.
Proof.
  induction txs as [|t txs IH]; intros s; simpl fold_left; [done|].
  rewrite addsOf_cons.
  destruct (tx_cases u t) as [Hne|[[Hu Hd]|[Hu [h Hd]]]].
  - rewrite bool_decide_eq_false_2 by done. intros H. rewrite IH by done.
    by destruct (transact_other t s u Hne) as (-> & _ & _).
  - rewrite bool_decide_eq_true_2, Hd by done. intros H. rewrite IH by done.
    by rewrite transact_rejected.
  - rewrite bool_decide_eq_true_2, Hd by done. discriminate.
Qed.

(** The stored total of an initialized account is authorized for the
    account and for the contract. *)
Lemma total_is_allowed u txs : forall s,
  (initializedOf s u = true -> (totalOf s u, u) ∈ acl s /\ (totalOf s u, this) ∈ acl s) ->
  initializedOf (fold_left (transact fhe this) txs s) u = true ->
  (totalOf (fold_left (transact fhe this) txs s) u, u)
    ∈ acl (fold_left (transact fhe this) txs s) /\
  (totalOf (fold_left (transact fhe this) txs s) u, this)
    ∈ acl (fold_left (transact fhe this) txs s).
Proof.
  induction txs as [|t txs IH]; intros s Hs; simpl fold_left; [done|].
  apply IH.
  destruct (tx_cases u t) as [Hne|[[Hu Hd]|[Hu [h Hd]]]].
  - destruct (transact_other t s u Hne) as (-> & -> & _).
    intros Hi. destruct (Hs Hi) as [H1 H2].
    pose proof (transact_acl_grows t s) as Hg. split; by apply Hg.
  - by rewrite transact_rejected.
  - intros _. pose proof (transact_allows t s h Hd) as Ha. by rewrite Hu in Ha.
Qed.

End Steps.

(** *** The clear value of the total *)

Section Totals.

Context (fhe : FHE) (clear : euint32 -> Z) (this : address).
Hypothesis laws : Homomorphic fhe clear.

Lemma sum_nonneg u txs : 0 <= sum (amountsOf fhe clear this u txs).
Proof.
  unfold amountsOf. induction (addsOf fhe this u txs) as [|a l IH]; simpl; [lia|].
  pose proof (clear_range _ _ laws (snd a)). lia.
Qed.

Lemma total_fold u txs : forall s,
  clear (totalOf (fold_left (transact fhe this) txs s) u) =
  if initializedOf s u then
    (clear (totalOf s u) + sum (amountsOf fhe clear this u txs)) mod 2 ^ 32
  else
    match addsOf fhe this u txs with
    | [] => clear (totalOf s u)
    | _ => sum (amountsOf fhe clear this u txs) mod 2 ^ 32
    end.
Proof.
  unfold amountsOf.
  induction txs as [|t txs IH]; intros s; simpl fold_left.
  - simpl. destruct (initializedOf s u); [|done].
    rewrite Z.add_0_r, Z.mod_small; [done|apply (clear_range _ _ laws)].
  - rewrite IH, addsOf_cons.
    destruct (tx_cases fhe this u t) as [Hne|[[Hu Hd]|[Hu [h Hd]]]].
    + rewrite bool_decide_eq_false_2 by done.
      by destruct (transact_other fhe this t s u Hne) as (-> & -> & _).
    + rewrite bool_decide_eq_true_2, Hd by done.
      by rewrite transact_rejected.
    + rewrite bool_decide_eq_true_2, Hd by done.
      destruct (transact_sender fhe this t s h Hd) as (Ht & Hi & _).
      rewrite Hu in Ht, Hi. rewrite Hi, Ht. simpl.
      destruct (initializedOf s u).
      * rewrite (clear_add _ _ laws), Zplus_mod_idemp_l. f_equal. lia.
      * done.
Qed.

End Totals.

(** The sample runtime satisfies the two laws of [euint32]. *)
Lemma mock_homomorphic : Homomorphic MockFHE.fhe MockFHE.clear.
Proof.
  split; unfold MockFHE.clear; simpl.
  - intros h. apply Z.mod_pos_bound. lia.
  - intros a b.
    replace (2 * 2 ^ 32 + (a + b) mod 2 ^ 32) with ((a + b) mod 2 ^ 32 + 2 * 2 ^ 32) by lia.
    rewrite Z_mod_plus_full, Z.mod_mod by lia.
    apply Z.add_mod. lia.
Qed.

(** *** The properties the specification states *)

Section Claims.

Context (fhe : FHE) (this : address).

(** C1 (as amended).  For every account [u] and every list of transactions
    in which [u] has at least one successful add, with clear amounts
    [a1 .. an], decrypting the resulting total yields the sum of the
    amounts modulo 2^32, and hence exactly the sum whenever the sum is
    below 2^32.  The contract gets there without decrypting: on the first
    add the total becomes the decoded amount, on every later add it becomes
    [FHE.add] of the stored total and the decoded amount. *)
Theorem total_decrypts_to_sum_mod_2_32 (clear : euint32 -> Z)
    (laws : Homomorphic fhe clear) (txs : list Tx) (u : address) :
  (forall s t amount, decoded fhe this t = Some amount ->
     getEncryptedMonthlyTotal (transact fhe this s t) (msg_sender (tx_env t)) =
     if hasInitialized s (msg_sender (tx_env t))
     then add fhe (getEncryptedMonthlyTotal s (msg_sender (tx_env t))) amount
     else amount) /\
  (amountsOf fhe clear this u txs <> [] ->
   clear (getEncryptedMonthlyTotal (run fhe this txs) u) =
     sum (amountsOf fhe clear this u txs) mod 2 ^ 32 /\
   (sum (amountsOf fhe clear this u txs) < 2 ^ 32 ->
    clear (getEncryptedMonthlyTotal (run fhe this txs) u) =
      sum (amountsOf fhe clear this u txs))).
Proof.
  split.
  - intros s t amount Hd.
    by destruct (transact_sender fhe this t s amount Hd) as (Ht & _ & _).
  - intros Hne.
    assert (Hmod : clear (getEncryptedMonthlyTotal (run fhe this txs) u) =
                   sum (amountsOf fhe clear this u txs) mod 2 ^ 32).
    { unfold getEncryptedMonthlyTotal, run.
      rewrite (total_fold fhe clear this laws u txs deployed).
      change (initializedOf deployed u) with false. cbv iota.
      unfold amountsOf in Hne.
      by destruct (addsOf fhe this u txs). }
    split; [exact Hmod|].
    intros Hlt. rewrite Hmod. apply Z.mod_small.
    pose proof (sum_nonneg fhe clear this laws u txs). lia.
Qed.

(** C2.  After any list of transactions, the record count of an account is
    the number of its successful adds, the record at index [i] carries the
    block time and the category of its [i]-th successful add, and every
    transaction leaves the records an account had in place, appending one
    record exactly when it is a successful add of that account. *)
Theorem records_follow_adds (txs : list Tx) (u : address) :
  getExpenseRecordCount (run fhe this txs) u = N.of_nat (length (addsOf fhe this u txs)) /\
  (forall (i : nat) t h, addsOf fhe this u txs !! i = Some (t, h) ->
     getExpenseRecord (run fhe this txs) u (N.of_nat i) =
     Ok (block_timestamp (tx_env t), tx_category t)) /\
  (forall s t,
     recordsOf (transact fhe this s t) u =
     recordsOf s u ++
       (if bool_decide (msg_sender (tx_env t) = u) then
          match decoded fhe this t with Some _ => [recordOf t] | None => [] end
        else [])).
Proof.
  assert (Hrec : recordsOf (run fhe this txs) u =
                 map (fun a => recordOf (fst a)) (addsOf fhe this u txs)).
  { unfold run. by rewrite records_fold. }
  split; [|split].
  - unfold getExpenseRecordCount. by rewrite Hrec, length_map.
  - intros i t h Hi. unfold getExpenseRecord. rewrite Hrec, length_map.
    pose proof (lookup_lt_Some _ _ _ Hi) as Hlt.
    replace (N.of_nat i <? N.of_nat (length (addsOf fhe this u txs)))%N with true
      by (symmetry; apply N.ltb_lt; lia).
    by rewrite Nat2N.id, list_lookup_fmap, Hi.
  - intros s t.
    destruct (tx_cases fhe this u t) as [Hne|[[Hu Hd]|[Hu [h Hd]]]].
    + rewrite bool_decide_eq_false_2 by done. rewrite app_nil_r.
      by destruct (transact_other fhe this t s u Hne) as (_ & _ & ->).
    + rewrite bool_decide_eq_true_2, Hd by done.
      by rewrite transact_rejected, app_nil_r.
    + rewrite bool_decide_eq_true_2, Hd by done.
      destruct (transact_sender fhe this t s h Hd) as (_ & _ & Hr).
      by rewrite Hu in Hr.
Qed.

(** C3.  An account without a successful add, after any list of
    transactions of other accounts and of rejected ones, is not
    initialized and its encrypted total is the zero handle. *)
Theorem never_added_reads_zero (txs : list Tx) (u : address) :
  addsOf fhe this u txs = [] ->
  hasInitialized (run fhe this txs) u = false /\
  getEncryptedMonthlyTotal (run fhe this txs) u = 0.
Proof.
  intros Hnone. unfold hasInitialized, getEncryptedMonthlyTotal, run. split.
  - by rewrite initialized_fold, Hnone.
  - by rewrite total_fold_none.
Qed.

(** C4.  In every state, [getExpenseRecord user index] reverts exactly when
    [index >= getExpenseRecordCount user], then with the out-of-bounds
    message; for a smaller index it returns the stored time and category. *)
Theorem getExpenseRecord_bounds (s : State) (user : address) (index : uint256) :
  ((exists why, getExpenseRecord s user index = Revert why) <->
   (getExpenseRecordCount s user <= index)%N) /\
  ((getExpenseRecordCount s user <= index)%N ->
   getExpenseRecord s user index = Revert (RequireFailed "Record index out of bounds")) /\
  ((index < getExpenseRecordCount s user)%N ->
   exists record, recordsOf s user !! N.to_nat index = Some record /\
     getExpenseRecord s user index = Ok (timestamp record, category record)).
Proof.
  unfold getExpenseRecord, getExpenseRecordCount.
  destruct (N.ltb_spec index (N.of_nat (length (recordsOf s user)))) as [Hlt|Hge].
  - destruct (lookup_lt_is_Some_2 (recordsOf s user) (N.to_nat index)) as [r Hr]; [lia|].
    rewrite Hr. split; [|split].
    + split; [intros [why Hw]; discriminate|lia].
    + lia.
    + intros _. by exists r.
  - split; [|split].
    + split; [done|]. intros _. by eexists.
    + done.
    + lia.
Qed.

(** C5.  A successful [addExpense] of account [A] leaves the flag, the
    encrypted total, the record count and every record of any other
    account [B] as they were. *)
Theorem addExpense_frame (s s' : State) (t : Tx) (B : address) :
  msg_sender (tx_env t) <> B ->
  call fhe this t s = Ok s' ->
  hasInitialized s' B = hasInitialized s B /\
  getEncryptedMonthlyTotal s' B = getEncryptedMonthlyTotal s B /\
  getExpenseRecordCount s' B = getExpenseRecordCount s B /\
  (forall index, getExpenseRecord s' B index = getExpenseRecord s B index).
Proof.
  intros Hne Hcall.
  pose proof (transact_other fhe this t s B Hne) as (Ht & Hi & Hr).
  unfold transact in Ht, Hi, Hr. rewrite Hcall in Ht, Hi, Hr.
  unfold hasInitialized, getEncryptedMonthlyTotal, getExpenseRecordCount, getExpenseRecord.
  by rewrite Ht, Hi, Hr.
Qed.

(** C6.  [addExpense] reverts exactly when [FHE.fromExternal] rejects the
    proof for the ciphertext, the caller and the contract; whether it
    reverts does not depend on the category string; and a reverted
    transaction leaves the whole state as it was. *)
Theorem addExpense_reverts_iff_proof_rejected :
  (forall env encryptedAmount inputProof category s,
     (exists why, addExpense fhe this env encryptedAmount inputProof category s = Revert why) <->
     fromExternal fhe this (msg_sender env) encryptedAmount inputProof = None) /\
  (forall env encryptedAmount inputProof category s,
     fromExternal fhe this (msg_sender env) encryptedAmount inputProof <> None ->
     exists s', addExpense fhe this env encryptedAmount inputProof category s = Ok s') /\
  (forall s t why, call fhe this t s = Revert why ->
     transact fhe this s t = s /\
     recordsOf (transact fhe this s t) (msg_sender (tx_env t)) = recordsOf s (msg_sender (tx_env t)) /\
     totalOf (transact fhe this s t) (msg_sender (tx_env t)) = totalOf s (msg_sender (tx_env t)) /\
     initializedOf (transact fhe this s t) (msg_sender (tx_env t)) =
       initializedOf s (msg_sender (tx_env t))).
Proof.
  split; [|split].
  - intros env h p c s. unfold addExpense.
    destruct (fromExternal fhe this (msg_sender env) h p).
    + split; [intros [why Hw]; discriminate|discriminate].
    + split; [done|]. intros _. by eexists.
  - intros env h p c s Hv. unfold addExpense.
    destruct (fromExternal fhe this (msg_sender env) h p); [by eexists|done].
  - intros s t why Hcall.
    assert (transact fhe this s t = s) as -> by (unfold transact; by rewrite Hcall).
    done.
Qed.

(** C10.  After any list of transactions and for every account, the flag is
    set exactly when the account has at least one record; and a set flag
    stays set across any further transaction. *)
Theorem initialized_iff_has_records (txs : list Tx) (u : address) :
  (hasInitialized (run fhe this txs) u = true <->
   (0 < getExpenseRecordCount (run fhe this txs) u)%N) /\
  (forall s t, hasInitialized s u = true ->
     hasInitialized (transact fhe this s t) u = true).
Proof.
  split.
  - unfold hasInitialized, getExpenseRecordCount, run.
    rewrite initialized_fold, records_fold.
    change (initializedOf deployed u) with false.
    change (recordsOf deployed u) with (@nil ExpenseRecord).
    destruct (addsOf fhe this u txs); simpl; [split; [done|lia]|split; [lia|done]].
  - intros s t Hs. unfold hasInitialized in *.
    destruct (tx_cases fhe this u t) as [Hne|[[Hu Hd]|[Hu [h Hd]]]].
    + by destruct (transact_other fhe this t s u Hne) as (_ & -> & _).
    + by rewrite transact_rejected.
    + destruct (transact_sender fhe this t s h Hd) as (_ & Hi & _).
      by rewrite Hu in Hi.
Qed.

End Claims.

(** *** The theorems at the sample runtime *)

Import MockFHE.

Example scenario_totals :
  clear (getEncryptedMonthlyTotal (run MockFHE.fhe ledgerAddress scenario) alice) = 1500 /\
  clear (getEncryptedMonthlyTotal (run MockFHE.fhe ledgerAddress scenario) bob) = 2000 /\
  getExpenseRecordCount (run MockFHE.fhe ledgerAddress scenario) alice = 2%N /\
  getExpenseRecord (run MockFHE.fhe ledgerAddress scenario) alice 1 = Ok (200%N, "labor").
Proof. vm_compute. done. Qed.

Lemma total_decrypts_to_sum_witness :
  amountsOf MockFHE.fhe clear ledgerAddress alice scenario <> [] /\
  clear (getEncryptedMonthlyTotal (run MockFHE.fhe ledgerAddress scenario) alice) = 1000 + 500.
Proof.
  assert (H : amountsOf MockFHE.fhe clear ledgerAddress alice scenario <> [])
    by (vm_compute; discriminate).
  split; [exact H|].
  destruct (total_decrypts_to_sum_mod_2_32 MockFHE.fhe ledgerAddress clear
              mock_homomorphic scenario alice) as [_ Hsum].
  destruct (Hsum H) as [_ Hexact].
  rewrite Hexact; vm_compute; reflexivity.
Defined.

(** C1 as stated fails when the amounts add up to 2^32 or more: after Alice
    adds 4294967295 and then 1, her total decrypts to 0, not to 4294967296. *)
Lemma total_is_not_the_sum_past_32_bits :
  Homomorphic MockFHE.fhe clear /\
  amountsOf MockFHE.fhe clear ledgerAddress alice overflowing = [4294967295; 1] /\
  clear (getEncryptedMonthlyTotal (run MockFHE.fhe ledgerAddress overflowing) alice) = 0 /\
  clear (getEncryptedMonthlyTotal (run MockFHE.fhe ledgerAddress overflowing) alice) <>
    sum (amountsOf MockFHE.fhe clear ledgerAddress alice overflowing).
Proof.
  split; [exact mock_homomorphic|].
  split; [vm_compute; reflexivity|].
  split; [vm_compute; reflexivity|].
  vm_compute. discriminate.
Qed.

Lemma records_follow_adds_witness :
  addsOf MockFHE.fhe ledgerAddress alice scenario !! 1%nat =
    Some (addTx alice 200 500 "labor", encrypt 500) /\
  getExpenseRecord (run MockFHE.fhe ledgerAddress scenario) alice 1 = Ok (200%N, "labor").
Proof.
  assert (H : addsOf MockFHE.fhe ledgerAddress alice scenario !! 1%nat =
              Some (addTx alice 200 500 "labor", encrypt 500)) by (vm_compute; reflexivity).
  split; [exact H|].
  destruct (records_follow_adds MockFHE.fhe ledgerAddress scenario alice) as (_ & Hget & _).
  exact (Hget 1%nat _ _ H).
Defined.

Lemma never_added_reads_zero_witness :
  addsOf MockFHE.fhe ledgerAddress bob [addTx alice 100 1000 "materials"; forgedTx bob 150 7 "labor"] = [] /\
  hasInitialized (run MockFHE.fhe ledgerAddress
    [addTx alice 100 1000 "materials"; forgedTx bob 150 7 "labor"]) bob = false /\
  getEncryptedMonthlyTotal (run MockFHE.fhe ledgerAddress
    [addTx alice 100 1000 "materials"; forgedTx bob 150 7 "labor"]) bob = 0.
Proof.
  assert (H : addsOf MockFHE.fhe ledgerAddress bob
                [addTx alice 100 1000 "materials"; forgedTx bob 150 7 "labor"] = [])
    by (vm_compute; reflexivity).
  split; [exact H|].
  exact (never_added_reads_zero MockFHE.fhe ledgerAddress _ bob H).
Defined.

Lemma getExpenseRecord_bounds_witness :
  (getExpenseRecordCount (run MockFHE.fhe ledgerAddress scenario) alice <= 2)%N /\
  getExpenseRecord (run MockFHE.fhe ledgerAddress scenario) alice 2 =
    Revert (RequireFailed "Record index out of bounds").
Proof.
  assert (H : (getExpenseRecordCount (run MockFHE.fhe ledgerAddress scenario) alice <= 2)%N)
    by (vm_compute; discriminate).
  split; [exact H|].
  destruct (getExpenseRecord_bounds (run MockFHE.fhe ledgerAddress scenario) alice 2)
    as (_ & Hrev & _).
  exact (Hrev H).
Defined.

Lemma addExpense_frame_witness :
  msg_sender (tx_env (addTx bob 300 2000 "materials")) <> alice /\
  call MockFHE.fhe ledgerAddress (addTx bob 300 2000 "materials")
    (run MockFHE.fhe ledgerAddress (take 2 scenario)) =
    Ok (run MockFHE.fhe ledgerAddress scenario) /\
  getEncryptedMonthlyTotal (run MockFHE.fhe ledgerAddress scenario) alice =
    getEncryptedMonthlyTotal (run MockFHE.fhe ledgerAddress (take 2 scenario)) alice.
Proof.
  assert (Hne : msg_sender (tx_env (addTx bob 300 2000 "materials")) <> alice)
    by (vm_compute; discriminate).
  assert (Hcall : call MockFHE.fhe ledgerAddress (addTx bob 300 2000 "materials")
            (run MockFHE.fhe ledgerAddress (take 2 scenario)) =
            Ok (run MockFHE.fhe ledgerAddress scenario)) by (vm_compute; reflexivity).
  split; [exact Hne|]. split; [exact Hcall|].
  destruct (addExpense_frame MockFHE.fhe ledgerAddress _ _ _ alice Hne Hcall) as (_ & Ht & _).
  exact Ht.
Defined.

Lemma addExpense_reverts_witness :
  call MockFHE.fhe ledgerAddress (forgedTx alice 250 9 "labor")
    (run MockFHE.fhe ledgerAddress scenario) = Revert ProofRejected /\
  transact MockFHE.fhe ledgerAddress (run MockFHE.fhe ledgerAddress scenario)
    (forgedTx alice 250 9 "labor") = run MockFHE.fhe ledgerAddress scenario.
Proof.
  assert (H : call MockFHE.fhe ledgerAddress (forgedTx alice 250 9 "labor")
            (run MockFHE.fhe ledgerAddress scenario) = Revert ProofRejected)
    by (vm_compute; reflexivity).
  split; [exact H|].
  destruct (addExpense_reverts_iff_proof_rejected MockFHE.fhe ledgerAddress) as (_ & _ & Hsame).
  destruct (Hsame _ _ _ H) as [Heq _]. exact Heq.
Defined.

Lemma initialized_iff_has_records_witness :
  hasInitialized (run MockFHE.fhe ledgerAddress scenario) alice = true /\
  (0 < getExpenseRecordCount (run MockFHE.fhe ledgerAddress scenario) alice)%N /\
  hasInitialized (transact MockFHE.fhe ledgerAddress (run MockFHE.fhe ledgerAddress scenario)
    (addTx bob 400 1 "other")) alice = true.
Proof.
  assert (H : hasInitialized (run MockFHE.fhe ledgerAddress scenario) alice = true)
    by (vm_compute; reflexivity).
  destruct (initialized_iff_has_records MockFHE.fhe ledgerAddress scenario alice) as [Hiff Hkeep].
  split; [exact H|]. split; [exact (proj1 Hiff H)|].
  exact (Hkeep _ (addTx bob 400 1 "other") H).
Defined.

End LedgerProofs.

(** ** Properties of the client hook *)
Module ClientProofs.
Import Client ClientTrace.

(** [evaluated H t] adds the equation of a closed term [t] with its value. *)
Ltac evaluated H t :=
  let v := eval vm_compute in t in
  assert (H : t = v) by (vm_compute; reflexivity).

(** *** The control operators *)

Lemma tryCatch_throw {A} (m : M A) handler h e h' :
  m h = (Throw e, h') -> tryCatch m handler h = handler e h'.
Proof. intros H. unfold tryCatch. by rewrite H. Qed.

Lemma tryCatch_return {A} (m : M A) handler h a h' :
  m h = (Return a, h') -> tryCatch m handler h = (Return a, h').
Proof. intros H. unfold tryCatch. by rewrite H. Qed.

Lemma bind_throw {A B} (m : M A) (k : A -> M B) h e h' :
  m h = (Throw e, h') -> (m ≫= k) h = (Throw e, h').
Proof. intros H. unfold mbind, M_bind. by rewrite H. Qed.






Section Operations.

Context (browser : Browser) (props : Props).

(** *** [loadExpenseRecords] *)



(** *** [loadEncryptedTotal] *)


(** *** [addExpense] once its six checks pass *)

Lemma addExpense_checked contract signer instance user provider amount category :
  truthy (contractAddress props) = Some contract ->
  ethersSigner props = Some signer ->
  fhevmInstance props = Some instance ->
  truthy (address props) = Some user ->
  ethersProvider props = Some provider ->
  leZero amount = false ->
  addExpense browser props amount category =
  tryFinally
    (tryCatch (addExpense_try browser props contract signer instance user provider amount category)
       addExpense_catch)
    (setIsLoading false).
Proof.
  intros Hc Hs Hi Ha Hp Hz. unfold addExpense. by rewrite Hc, Hs, Hi, Ha, Hp, Hz.
Qed.

Lemma decryptTotal_checked contract provider instance signer user :
  truthy (contractAddress props) = Some contract ->
  ethersProvider props = Some provider ->
  fhevmInstance props = Some instance ->
  ethersSigner props = Some signer ->
  truthy (address props) = Some user ->
  decryptTotal browser props =
  tryCatch (decryptTotal_try browser props contract provider instance signer user)
    decryptTotal_catch.
Proof.
  intros Hc Hp Hi Hs Ha. unfold decryptTotal. by rewrite Hc, Hp, Hi, Hs, Ha.
Qed.

End Operations.

(** *** The properties the specification states *)

(** C7.  [addExpense] checks its six preconditions in a fixed order, before
    anything else: the contract address, the signer, the FHEVM instance, the
    account address, the provider, and the amount, which must be above zero.
    The first one that is missing decides the outcome: the call throws an
    [Error] with the text of that check, shows that same text as the hook's
    message, and has performed no effect at all.  So whenever any
    precondition is missing the call fails in this way with one of the six
    texts. *)
Theorem addExpense_fails_fast (browser : Browser) (props : Props)
    (amount : number) (category : string) (h : Hook) :
  let run := addExpense browser props amount category h in
  (truthy (contractAddress props) = None ->
   failsFast "Contract address not configured. Please set VITE_CONTRACT_ADDRESS in .env.local"
     h run) /\
  (is_Some (truthy (contractAddress props)) ->
   ethersSigner props = None ->
   failsFast "Wallet signer not available. Please ensure your wallet is connected." h run) /\
  (is_Some (truthy (contractAddress props)) ->
   is_Some (ethersSigner props) ->
   fhevmInstance props = None ->
   failsFast "FHEVM instance not initialized. Please wait for initialization." h run) /\
  (is_Some (truthy (contractAddress props)) ->
   is_Some (ethersSigner props) ->
   is_Some (fhevmInstance props) ->
   truthy (address props) = None ->
   failsFast "Wallet address not available. Please connect your wallet." h run) /\
  (is_Some (truthy (contractAddress props)) ->
   is_Some (ethersSigner props) ->
   is_Some (fhevmInstance props) ->
   is_Some (truthy (address props)) ->
   ethersProvider props = None ->
   failsFast "Ethers provider not available." h run) /\
  (is_Some (truthy (contractAddress props)) ->
   is_Some (ethersSigner props) ->
   is_Some (fhevmInstance props) ->
   is_Some (truthy (address props)) ->
   is_Some (ethersProvider props) ->
   leZero amount = true ->
   failsFast "Expense amount must be greater than 0" h run) /\
  (truthy (contractAddress props) = None \/ ethersSigner props = None \/
   fhevmInstance props = None \/ truthy (address props) = None \/
   ethersProvider props = None \/ leZero amount = true ->
   exists text, In text preconditionMessages /\ failsFast text h run).
Proof.
  cbv zeta. unfold addExpense, failsFast.
  destruct (truthy (contractAddress props)) as [contract|];
    [|by repeat split; intros; try (by destruct select (is_Some None));
         eexists; (split; [|done]); simpl; auto 10].
  destruct (ethersSigner props) as [signer|];
    [|by repeat split; intros; try discriminate;
         try (by destruct select (is_Some None));
         eexists; (split; [|done]); simpl; auto 10].
  destruct (fhevmInstance props) as [instance|];
    [|by repeat split; intros; try discriminate;
         try (by destruct select (is_Some None));
         eexists; (split; [|done]); simpl; auto 10].
  destruct (truthy (address props)) as [user|];
    [|by repeat split; intros; try discriminate;
         try (by destruct select (is_Some None));
         eexists; (split; [|done]); simpl; auto 10].
  destruct (ethersProvider props) as [provider|];
    [|by repeat split; intros; try discriminate;
         try (by destruct select (is_Some None));
         eexists; (split; [|done]); simpl; auto 10].
  destruct (leZero amount);
    [by repeat split; intros; try discriminate;
        eexists; (split; [|done]); simpl; auto 10|].
  repeat split; try discriminate.
  intros [H|[H|[H|[H|[H|H]]]]]; discriminate.
Qed.

(** C8 (as amended).  When a precondition of [decryptTotal] is missing, the
    call shows the message "Missing requirements for decryption" and
    returns normally, without throwing and without performing any effect.
    When all are present and the contract reports the user as not
    initialized, it throws the "add expenses first" error and shows it
    behind the prefix "Error decrypting: ". *)
Theorem decryptTotal_preconditions (browser : Browser) (props : Props) (h : Hook) :
  (truthy (contractAddress props) = None \/ ethersProvider props = None \/
   fhevmInstance props = None \/ ethersSigner props = None \/
   truthy (address props) = None ->
   fst (decryptTotal browser props h) = Return tt /\
   message (snd (decryptTotal browser props h)) = Some missingRequirementsMessage /\
   effects (snd (decryptTotal browser props h)) = effects h) /\
  (forall contract provider instance signer user,
   truthy (contractAddress props) = Some contract ->
   ethersProvider props = Some provider ->
   fhevmInstance props = Some instance ->
   ethersSigner props = Some signer ->
   truthy (address props) = Some user ->
   read_hasInitialized provider (length (effects h)) contract user = inr false ->
   fst (decryptTotal browser props h) = Throw (newError addExpensesFirstMessage) /\
   message (snd (decryptTotal browser props h)) =
     Some ("Error decrypting: " +:+ addExpensesFirstMessage)).
Proof.
  split.
  - intros Hmissing. unfold decryptTotal.
    destruct (truthy (contractAddress props)) as [contract|]; [|done].
    destruct (ethersProvider props) as [provider|]; [|done].
    destruct (fhevmInstance props) as [instance|]; [|done].
    destruct (ethersSigner props) as [signer|]; [|done].
    destruct (truthy (address props)) as [user|]; [|done].
    destruct Hmissing as [H|[H|[H|[H|H]]]]; discriminate.
  - intros contract provider instance signer user Hc Hp Hi Hs Ha Hinit.
    rewrite (decryptTotal_checked browser props contract provider instance signer user)
      by assumption.
    unfold tryCatch, decryptTotal_try, mbind, M_bind, setMessage, perform. simpl.
    rewrite Hinit. simpl. split; reflexivity.
Qed.

(** *** The theorems at the sample wallets and nodes *)

Import ClientSamples.

Example addExpense_confirmed_and_refreshed :
  fst (addExpense browser (connected node wallet) (Finite 1000) "materials" initial)
    = Return tt /\
  message (snd (addExpense browser (connected node wallet) (Finite 1000) "materials" initial))
    = Some "Expense added successfully! Wait a moment, then you can decrypt your total." /\
  expenseRecords (snd (addExpense browser (connected node wallet) (Finite 1000)
                         "materials" initial))
    = [{| timestamp := 1700000000; category := "materials"; index := 0 |}] /\
  decryptedTotal (snd (decryptTotal browser (connected node wallet) initial)) = Some 1500.
Proof. vm_compute. repeat split; reflexivity. Qed.

Lemma addExpense_fails_fast_witness :
  truthy (contractAddress unconfigured) = None /\
  failsFast "Contract address not configured. Please set VITE_CONTRACT_ADDRESS in .env.local"
    initial (addExpense browser unconfigured (Finite 1000) "materials" initial) /\
  leZero (Finite 0) = true /\
  failsFast "Expense amount must be greater than 0"
    initial (addExpense browser (connected node wallet) (Finite 0) "materials" initial).
Proof.
  assert (H : truthy (contractAddress unconfigured) = None) by reflexivity.
  assert (Hz : leZero (Finite 0) = true) by reflexivity.
  destruct (addExpense_fails_fast browser unconfigured (Finite 1000) "materials" initial)
    as (Hfirst & _).
  destruct (addExpense_fails_fast browser (connected node wallet) (Finite 0) "materials"
              initial) as (_ & _ & _ & _ & _ & Hlast & _).
  exact (conj H (conj (Hfirst H) (conj Hz
    (Hlast (ex_intro _ ledger eq_refl) (ex_intro _ wallet eq_refl)
           (ex_intro _ relayer eq_refl) (ex_intro _ account eq_refl)
           (ex_intro _ node eq_refl) Hz)))).
Defined.

(** C8 as stated fails: without a contract address [decryptTotal] returns
    normally, so its caller sees no failure. *)
Lemma decryptTotal_returns_without_contract :
  truthy (contractAddress unconfigured) = None /\
  fst (decryptTotal browser unconfigured initial) = Return tt /\
  ~ (exists e, fst (decryptTotal browser unconfigured initial) = Throw e).
Proof.
  split; [reflexivity|]. split; [reflexivity|].
  intros [e He]. vm_compute in He. discriminate.
Qed.

Lemma decryptTotal_preconditions_witness :
  read_hasInitialized freshNode (length (effects initial)) ledger account = inr false /\
  fst (decryptTotal browser (connected freshNode wallet) initial)
    = Throw (newError addExpensesFirstMessage) /\
  message (snd (decryptTotal browser (connected freshNode wallet) initial))
    = Some ("Error decrypting: " +:+ addExpensesFirstMessage).
Proof.
  assert (H : read_hasInitialized freshNode (length (effects initial)) ledger account
              = inr false) by reflexivity.
  split; [exact H|].
  destruct (decryptTotal_preconditions browser (connected freshNode wallet) initial)
    as [_ Hfresh].
  exact (Hfresh ledger freshNode relayer wallet account
           eq_refl eq_refl eq_refl eq_refl eq_refl H).
Defined.


End ClientProofs.

(** ** Further properties of the contract *)
Module LedgerExtras.
Import Ledger LedgerViews LedgerProofs.

Section Steps.

Context (fhe : FHE) (this : address).

(** The access control list and the event log after one transaction. *)
Lemma transact_acl_logs t s :
  let u := msg_sender (tx_env t) in
  let s' := transact fhe this s t in
  match decoded fhe this t with
  | Some _ =>
    acl s' = {[ (totalOf s' u, u) ]} ∪ ({[ (totalOf s' u, this) ]} ∪ acl s) /\
    logs s' = logs s ++ eventsOf t
  | None => s' = s
  end.
Proof.
  intros u s'. subst s'. unfold transact. rewrite call_decoded.
  destruct (decoded fhe this t) as [amount|]; [|done]. fold u.
  cbv zeta. destruct (initializedOf s u); simpl; unfold totalOf; simpl;
    by rewrite <- app_assoc.
Qed.

Lemma run_snoc txs t :
  run fhe this (txs ++ [t]) = transact fhe this (run fhe this txs) t.
Proof. unfold run. by rewrite fold_left_app. Qed.

Lemma logs_fold txs : forall s,
  logs (fold_left (transact fhe this) txs s) =
  logs s ++ concat (map eventsOf (accepted fhe this txs)).
Proof.
  induction txs as [|t txs IH]; intros s; simpl fold_left.
  - by rewrite app_nil_r.
  - rewrite IH. unfold accepted. rewrite filter_cons.
    pose proof (transact_acl_logs t s) as Hstep.
    destruct (decoded fhe this t) as [amount|] eqn:Hd.
    + destruct Hstep as [_ ->].
      rewrite decide_True by (by eexists). simpl. by rewrite <- app_assoc.
    + rewrite Hstep. rewrite decide_False; [done|]. by intros [? ?].
Qed.

Lemma indexed_eventsOf u t log :
  indexed u (eventsOf t ++ log) =
  (if bool_decide (msg_sender (tx_env t) = u)
   then [(block_timestamp (tx_env t), tx_category t)] else []) ++ indexed u log.
Proof. unfold indexed. simpl. by destruct (bool_decide _). Qed.

Lemma indexed_accepted u txs :
  indexed u (concat (map eventsOf (accepted fhe this txs))) =
  map (fun a => (block_timestamp (tx_env (fst a)), tx_category (fst a)))
      (addsOf fhe this u txs).
Proof.
  induction txs as [|t txs IH]; [done|].
  unfold accepted. rewrite filter_cons, addsOf_cons.
  destruct (decoded fhe this t) as [h|] eqn:Hd.
  - rewrite decide_True by (by eexists).
    change (concat (map eventsOf (t :: filter (fun t0 => is_Some (decoded fhe this t0)) txs)))
      with (eventsOf t ++ concat (map eventsOf (accepted fhe this txs))).
    rewrite indexed_eventsOf, IH. by destruct (bool_decide _).
  - rewrite decide_False by (by intros [? ?]).
    fold (accepted fhe this txs). rewrite IH. by destruct (bool_decide _).
Qed.

(** Two states that agree on an account still agree on it after the same
    transaction of that account. *)
Lemma transact_agree t s1 s2 :
  let u := msg_sender (tx_env t) in
  totalOf s1 u = totalOf s2 u ->
  initializedOf s1 u = initializedOf s2 u ->
  recordsOf s1 u = recordsOf s2 u ->
  totalOf (transact fhe this s1 t) u = totalOf (transact fhe this s2 t) u /\
  initializedOf (transact fhe this s1 t) u = initializedOf (transact fhe this s2 t) u /\
  recordsOf (transact fhe this s1 t) u = recordsOf (transact fhe this s2 t) u.
Proof.
  cbv zeta. intros Ht Hi Hr.
  destruct (decoded fhe this t) as [amount|] eqn:Hd.
  - destruct (transact_sender fhe this t s1 amount Hd) as (-> & -> & ->).
    destruct (transact_sender fhe this t s2 amount Hd) as (-> & -> & ->).
    by rewrite Ht, Hi, Hr.
  - by rewrite !transact_rejected.
Qed.

Lemma own_fold u txs : forall s1 s2,
  totalOf s1 u = totalOf s2 u ->
  initializedOf s1 u = initializedOf s2 u ->
  recordsOf s1 u = recordsOf s2 u ->
  totalOf (fold_left (transact fhe this) txs s1) u =
    totalOf (fold_left (transact fhe this) (sentBy u txs) s2) u /\
  initializedOf (fold_left (transact fhe this) txs s1) u =
    initializedOf (fold_left (transact fhe this) (sentBy u txs) s2) u /\
  recordsOf (fold_left (transact fhe this) txs s1) u =
    recordsOf (fold_left (transact fhe this) (sentBy u txs) s2) u.
Proof.
  induction txs as [|t txs IH]; intros s1 s2 Ht Hi Hr; [done|].
  unfold sentBy. rewrite filter_cons. simpl fold_left.
  destruct (decide (msg_sender (tx_env t) = u)) as [Hu|Hne].
  - simpl fold_left. subst u.
    destruct (transact_agree t s1 s2 Ht Hi Hr) as (Ht' & Hi' & Hr').
    by apply IH.
  - destruct (transact_other fhe this t s1 u Hne) as (Ht' & Hi' & Hr').
    apply IH; congruence.
Qed.

(** The time stamps of the records of an account, from a bound on the
    time stamps of the transactions. *)
Lemma adds_bounded u (bound : N) txs :
  Forall (N.le bound) (map (fun t => block_timestamp (tx_env t)) txs) ->
  Forall (N.le bound)
    (map timestamp (map (fun a => recordOf (fst a)) (addsOf fhe this u txs))).
Proof.
  induction txs as [|t txs IH]; intros Hall; [constructor|].
  simpl in Hall. apply Forall_cons in Hall as [Ht Htxs].
  rewrite addsOf_cons. destruct (bool_decide _); [|by apply IH].
  destruct (decoded fhe this t); [|by apply IH].
  simpl. constructor; [exact Ht|by apply IH].
Qed.

End Steps.

(** *** Properties *)

Section Properties.

Context (fhe : FHE) (this : address).

(** X1.  After any list of transactions, the stored total of every initialized
    account is authorized both for that account and for the contract. *)
Theorem totals_are_authorized (txs : list Tx) (u : address) :
  hasInitialized (run fhe this txs) u = true ->
  (getEncryptedMonthlyTotal (run fhe this txs) u, u) ∈ acl (run fhe this txs) /\
  (getEncryptedMonthlyTotal (run fhe this txs) u, this) ∈ acl (run fhe this txs).
Proof.
  intros Hinit. apply (total_is_allowed fhe this u txs deployed); [|exact Hinit].
  change (initializedOf deployed u) with false. discriminate.
Qed.

(** X2.  The contract authorizes a handle only for the account whose stored
    total it is at that moment, and for itself: every entry of the access
    control list pairs an account's total at some point of the history
    with that account or with the contract. *)
Theorem authorizations_only_to_owner_and_contract (txs : list Tx) (h a : Z) :
  (h, a) ∈ acl (run fhe this txs) ->
  exists (n : nat) (u : address),
    (n <= length txs)%nat /\
    h = getEncryptedMonthlyTotal (run fhe this (take n txs)) u /\
    hasInitialized (run fhe this (take n txs)) u = true /\
    (a = u \/ a = this).
Proof.
  induction txs as [|t txs IH] using rev_ind; intros Hin.
  - by apply not_elem_of_empty in Hin.
  - assert (Hold : (h, a) ∈ acl (run fhe this txs) ->
      exists (n : nat) (u : address),
        (n <= length (txs ++ [t]))%nat /\
        h = getEncryptedMonthlyTotal (run fhe this (take n (txs ++ [t]))) u /\
        hasInitialized (run fhe this (take n (txs ++ [t]))) u = true /\
        (a = u \/ a = this)).
    { intros Hprev. destruct (IH Hprev) as (n & u & Hn & Hh & Hi & Ha).
      exists n, u. rewrite length_app, take_app_le by done.
      split; [lia|done]. }
    rewrite run_snoc in Hin.
    pose proof (transact_acl_logs fhe this t (run fhe this txs)) as Hstep.
    destruct (decoded fhe this t) as [amount|] eqn:Hd.
    + destruct Hstep as [Hacl _]. rewrite Hacl in Hin.
      destruct (transact_sender fhe this t (run fhe this txs) amount Hd) as (_ & Hi & _).
      assert (Hnew : (h, a) = (totalOf (transact fhe this (run fhe this txs) t)
                                 (msg_sender (tx_env t)), msg_sender (tx_env t)) \/
                     (h, a) = (totalOf (transact fhe this (run fhe this txs) t)
                                 (msg_sender (tx_env t)), this) \/
                     (h, a) ∈ acl (run fhe this txs)) by set_solver.
      destruct Hnew as [Heq|[Heq|Hprev]]; [| |by apply Hold].
      * injection Heq as -> ->. exists (length (txs ++ [t])), (msg_sender (tx_env t)).
        rewrite firstn_all, run_snoc. unfold hasInitialized, getEncryptedMonthlyTotal.
        repeat split; [lia|exact Hi|by left].
      * injection Heq as -> ->. exists (length (txs ++ [t])), (msg_sender (tx_env t)).
        rewrite firstn_all, run_snoc. unfold hasInitialized, getEncryptedMonthlyTotal.
        repeat split; [lia|exact Hi|by right].
    + rewrite Hstep in Hin. by apply Hold.
Qed.

(** X3.  The event log after any list of transactions is, in order, one
    [ExpenseAdded] followed by one [MonthlyTotalUpdated] for every accepted
    transaction and nothing for a rejected one; and for every account the
    [ExpenseAdded] events of that account list, in order, the time and
    category of exactly its stored records. *)
Theorem event_log_mirrors_records (txs : list Tx) :
  logs (run fhe this txs) = concat (map eventsOf (accepted fhe this txs)) /\
  (forall u, indexed u (logs (run fhe this txs)) =
     map (fun r => (timestamp r, category r)) (recordsOf (run fhe this txs) u)).
Proof.
  assert (Hlogs : logs (run fhe this txs) = concat (map eventsOf (accepted fhe this txs))).
  { unfold run. by rewrite logs_fold. }
  split; [exact Hlogs|].
  intros u. rewrite Hlogs, indexed_accepted. unfold run. rewrite records_fold.
  change (recordsOf deployed u) with (@nil ExpenseRecord). simpl.
  by rewrite map_map.
Qed.

(** X4.  What an account reads from the contract depends only on the
    transactions that account sent: dropping every other account's
    transactions from the history changes neither its flag, nor its total,
    nor its records. *)
Theorem own_transactions_decide (txs : list Tx) (u : address) :
  hasInitialized (run fhe this txs) u = hasInitialized (run fhe this (sentBy u txs)) u /\
  getEncryptedMonthlyTotal (run fhe this txs) u =
    getEncryptedMonthlyTotal (run fhe this (sentBy u txs)) u /\
  getExpenseRecordCount (run fhe this txs) u =
    getExpenseRecordCount (run fhe this (sentBy u txs)) u /\
  (forall index, getExpenseRecord (run fhe this txs) u index =
     getExpenseRecord (run fhe this (sentBy u txs)) u index).
Proof.
  destruct (own_fold fhe this u txs deployed deployed eq_refl eq_refl eq_refl)
    as (Ht & Hi & Hr).
  unfold hasInitialized, getEncryptedMonthlyTotal, getExpenseRecordCount,
    getExpenseRecord, run.
  by rewrite Ht, Hi, Hr.
Qed.

(** X5.  When block time never goes back along the history, the records of
    every account are stored in chronological order. *)
Theorem records_are_chronological (txs : list Tx) (u : address) :
  StronglySorted N.le (map (fun t => block_timestamp (tx_env t)) txs) ->
  StronglySorted N.le (map timestamp (recordsOf (run fhe this txs) u)).
Proof.
  intros Hsorted. unfold run. rewrite records_fold.
  change (recordsOf deployed u) with (@nil ExpenseRecord). simpl.
  induction txs as [|t txs IH]; [constructor|].
  simpl in Hsorted. apply StronglySorted_inv in Hsorted as [Hrest Hfirst].
  rewrite addsOf_cons. destruct (bool_decide _); [|by apply IH].
  destruct (decoded fhe this t); [|by apply IH].
  simpl. constructor; [by apply IH|].
  by apply adds_bounded.
Qed.

End Properties.

(** *** The properties at the sample runtime *)

Import MockFHE.

Lemma totals_are_authorized_witness :
  hasInitialized (run MockFHE.fhe ledgerAddress scenario) alice = true /\
  (getEncryptedMonthlyTotal (run MockFHE.fhe ledgerAddress scenario) alice, alice)
    ∈ acl (run MockFHE.fhe ledgerAddress scenario) /\
  (getEncryptedMonthlyTotal (run MockFHE.fhe ledgerAddress scenario) alice, ledgerAddress)
    ∈ acl (run MockFHE.fhe ledgerAddress scenario).
Proof.
  assert (H : hasInitialized (run MockFHE.fhe ledgerAddress scenario) alice = true)
    by (vm_compute; reflexivity).
  split; [exact H|].
  exact (totals_are_authorized MockFHE.fhe ledgerAddress scenario alice H).
Defined.

Lemma authorizations_only_to_owner_and_contract_witness :
  (encrypt 1000, alice) ∈ acl (run MockFHE.fhe ledgerAddress scenario) /\
  exists (n : nat) (u : address),
    (n <= length scenario)%nat /\
    encrypt 1000 = getEncryptedMonthlyTotal (run MockFHE.fhe ledgerAddress (take n scenario)) u /\
    hasInitialized (run MockFHE.fhe ledgerAddress (take n scenario)) u = true /\
    (alice = u \/ alice = ledgerAddress).
Proof.
  assert (H : (encrypt 1000, alice) ∈ acl (run MockFHE.fhe ledgerAddress scenario)).
  { apply (bool_decide_unpack _). vm_compute. exact I. }
  split; [exact H|].
  exact (authorizations_only_to_owner_and_contract MockFHE.fhe ledgerAddress scenario
           (encrypt 1000) alice H).
Defined.

Lemma records_are_chronological_witness :
  StronglySorted N.le (map (fun t => block_timestamp (tx_env t)) scenario) /\
  StronglySorted N.le
    (map timestamp (recordsOf (run MockFHE.fhe ledgerAddress scenario) alice)).
Proof.
  assert (H : StronglySorted N.le (map (fun t => block_timestamp (tx_env t)) scenario)).
  { simpl. repeat constructor; lia. }
  split; [exact H|].
  exact (records_are_chronological MockFHE.fhe ledgerAddress scenario alice H).
Defined.

End LedgerExtras.

(** ** Further properties of the client hook *)
Module ClientExtras.
Import Client ClientTrace ClientProofs.

(** *** Relations preserved by every step *)

Section Preserves.

Context (R : Hook -> Hook -> Prop) `{!PreOrder R}.

Lemma preserves_bind {A B} (m : M A) (k : A -> M B) :
  preserves R m -> (forall a, preserves R (k a)) -> preserves R (m ≫= k).
Proof.
  intros Hm Hk h. unfold mbind, M_bind. specialize (Hm h).
  destruct (m h) as [[a|e] h']; simpl in *; [|done].
  etrans; [exact Hm|apply Hk].
Qed.

Lemma preserves_tryCatch {A} (m : M A) handler :
  preserves R m -> (forall e, preserves R (handler e)) -> preserves R (tryCatch m handler).
Proof.
  intros Hm Hk h. unfold tryCatch. specialize (Hm h).
  destruct (m h) as [[a|e] h']; simpl in *; [done|].
  etrans; [exact Hm|apply Hk].
Qed.

Lemma preserves_tryFinally {A} (m : M A) f :
  preserves R m -> preserves R f -> preserves R (tryFinally m f).
Proof.
  intros Hm Hf h. unfold tryFinally. specialize (Hm h).
  destruct (m h) as [r h']. specialize (Hf h').
  destruct (f h') as [[[]|e] h'']; simpl in *; by etrans.
Qed.

Lemma preserves_ret {A} (a : A) : preserves R (mret a).
Proof. intros h. reflexivity. Qed.

Lemma preserves_throw {A} e : preserves R (@throw A e).
Proof. intros h. reflexivity. Qed.

End Preserves.

#[local] Instance addsOnly_preorder Q : PreOrder (addsOnly Q).
Proof.
  split.
  - intros h. exists []. by rewrite app_nil_r.
  - intros h1 h2 h3 (n1 & E1 & F1) (n2 & E2 & F2). exists (n1 ++ n2).
    rewrite E2, E1, app_assoc. split; [done|by apply Forall_app].
Qed.

#[local] Instance same_preorder {X} (f : Hook -> X) : PreOrder (same f).
Proof. split; [by intros h|]. intros h1 h2 h3 E1 E2. unfold same in *. congruence. Qed.

(** The state writes perform no effect. *)
Ltac quiet := intros h; exists []; simpl; by rewrite app_nil_r.

Lemma addsOnly_setMessage Q v : preserves (addsOnly Q) (setMessage v).
Proof. quiet. Qed.
Lemma addsOnly_setIsLoading Q v : preserves (addsOnly Q) (setIsLoading v).
Proof. quiet. Qed.
Lemma addsOnly_setEncryptedTotal Q v : preserves (addsOnly Q) (setEncryptedTotal v).
Proof. quiet. Qed.
Lemma addsOnly_setDecryptedTotal Q v : preserves (addsOnly Q) (setDecryptedTotal v).
Proof. quiet. Qed.
Lemma addsOnly_setExpenseRecords Q v : preserves (addsOnly Q) (setExpenseRecords v).
Proof. quiet. Qed.
Lemma addsOnly_consoleError Q v : preserves (addsOnly Q) (consoleError v).
Proof. quiet. Qed.

Lemma addsOnly_perform {A} (Q : Effect -> bool) e (ans : nat -> JsError + A) :
  Q e = true -> preserves (addsOnly Q) (perform e ans).
Proof.
  intros HQ h. exists [e]. unfold perform.
  destruct (ans _); simpl; (split; [done|by constructor]).
Qed.

(** One step of a proof that a program adds only effects of a kind. *)
Ltac adds_only :=
  repeat first
    [ apply preserves_ret; apply _
    | apply preserves_throw; apply _
    | apply addsOnly_setMessage | apply addsOnly_setIsLoading
    | apply addsOnly_setEncryptedTotal | apply addsOnly_setDecryptedTotal
    | apply addsOnly_setExpenseRecords | apply addsOnly_consoleError
    | apply addsOnly_perform; reflexivity
    | progress cbv zeta
    | apply preserves_bind; [apply _| |intros ?]
    | apply preserves_tryCatch; [apply _| |intros ?]
    | apply preserves_tryFinally; [apply _| |]
    | match goal with
      | |- preserves _ (if ?b then _ else _) => destruct b
      | |- preserves _ (match ?x with _ => _ end) => destruct x
      end ].

Lemma addsOnly_loadRecordsFrom Q provider contract user remaining :
  (forall c u i, Q (GetExpenseRecord c u i) = true) ->
  forall i records,
    preserves (addsOnly Q) (loadRecordsFrom provider contract user remaining i records).
Proof.
  intros HQ. induction remaining as [|n IH]; intros i records; simpl.
  - apply preserves_ret; apply _.
  - apply preserves_bind; [apply _|by apply addsOnly_perform|]. intros r. apply IH.
Qed.

Lemma addsOnly_loadExpenseRecords Q props :
  (forall e, isRead e = true -> Q e = true) ->
  preserves (addsOnly Q) (loadExpenseRecords props).
Proof.
  intros HQ. unfold loadExpenseRecords, loadExpenseRecords_try, loadExpenseRecords_catch.
  destruct (truthy (contractAddress props)) as [contract|]; [|adds_only].
  destruct (ethersProvider props) as [provider|]; [|adds_only].
  destruct (truthy (address props)) as [user|]; [|adds_only].
  apply preserves_tryCatch; [apply _| |intros ?; adds_only].
  apply preserves_bind; [apply _|by apply addsOnly_perform, HQ|]. intros n.
  apply preserves_bind; [apply _| |intros ?; adds_only].
  apply addsOnly_loadRecordsFrom. intros c u i. by apply HQ.
Qed.

Lemma addsOnly_loadEncryptedTotal Q props :
  (forall e, isRead e = true -> Q e = true) ->
  preserves (addsOnly Q) (loadEncryptedTotal props).
Proof.
  intros HQ. unfold loadEncryptedTotal, loadEncryptedTotal_try, loadEncryptedTotal_catch.
  destruct (truthy (contractAddress props)) as [contract|]; [|adds_only].
  destruct (ethersProvider props) as [provider|]; [|adds_only].
  destruct (truthy (address props)) as [user|]; [|adds_only].
  apply preserves_tryFinally; [apply _| |adds_only].
  apply preserves_tryCatch; [apply _| |intros ?; adds_only].
  apply preserves_bind; [apply _|adds_only|]. intros [].
  apply preserves_bind; [apply _| |].
  { apply preserves_tryCatch; [apply _| |intros ?; adds_only].
    apply preserves_bind; [apply _|by apply addsOnly_perform, HQ|intros ?; adds_only]. }
  intros reachable. destruct (negb reachable); [adds_only|].
  apply preserves_bind; [apply _|by apply addsOnly_perform, HQ|]. intros code.
  match goal with |- preserves _ (if ?b then _ else _) => destruct b end; [adds_only|].
  apply preserves_bind; [apply _|by apply addsOnly_perform, HQ|]. intros hasInit.
  destruct (negb hasInit); [adds_only|].
  apply preserves_bind; [apply _|by apply addsOnly_perform, HQ|]. intros encrypted.
  apply preserves_bind; [apply _|adds_only|]. intros [].
  by apply addsOnly_loadExpenseRecords.
Qed.

(** The same for a part of the state that a program leaves alone. *)
Ltac keeps_same :=
  repeat first
    [ apply preserves_bind; [apply _| |intros ?]
    | apply preserves_tryCatch; [apply _| |intros ?]
    | apply preserves_tryFinally; [apply _| |]
    | progress cbv zeta
    | solve [intros ?; reflexivity]
    | solve [intros ?; unfold perform, same; by destruct (_ _)]
    | match goal with
      | |- preserves _ (if ?b then _ else _) => destruct b
      | |- preserves _ (match ?x with _ => _ end) => destruct x
      end ].

Lemma same_perform {X A} (f : Hook -> X) e (ans : nat -> JsError + A) :
  (forall h e, f (withEffects h [e]) = f h) ->
  preserves (same f) (perform e ans).
Proof. intros Hf h. unfold perform, same. destruct (ans _); apply Hf. Qed.

Lemma same_loadRecordsFrom {X} (f : Hook -> X) provider contract user remaining :
  (forall h e, f (withEffects h [e]) = f h) ->
  forall i records,
    preserves (same f) (loadRecordsFrom provider contract user remaining i records).
Proof.
  intros Hf. induction remaining as [|n IH]; intros i records; simpl.
  - apply preserves_ret; apply _.
  - apply preserves_bind; [apply _|by apply same_perform|intros r; apply IH].
Qed.

(** The loop of [loadExpenseRecords] when every read is answered. *)
Lemma loadRecordsFrom_answered provider contract user answers remaining :
  forall i records h,
  (forall j, (j < remaining)%nat ->
     read_getExpenseRecord provider (length (effects h) + j) contract user (i + j)
       = inr (answers (i + j)%nat)) ->
  loadRecordsFrom provider contract user remaining i records h =
  (Return (records ++
     map (fun k => {| timestamp := Number (fst (answers k)); category := snd (answers k);
                      index := k |}) (seq i remaining)),
   withEffects h (map (GetExpenseRecord contract user) (seq i remaining))).
Proof.
  induction remaining as [|n IH]; intros i records h Hans; simpl.
  - rewrite app_nil_r. unfold withEffects. simpl. rewrite app_nil_r. by destruct h.
  - unfold mbind, M_bind, perform.
    pose proof (Hans 0%nat ltac:(lia)) as H0. rewrite !Nat.add_0_r in H0. rewrite H0.
    rewrite IH.
    + rewrite <- app_assoc. simpl. f_equal. unfold withEffects. simpl.
      by rewrite <- app_assoc.
    + intros j Hj. simpl. rewrite length_app. simpl.
      replace (length (effects h) + 1 + j)%nat with (length (effects h) + S j)%nat by lia.
      replace (S (i + j))%nat with (i + S j)%nat by lia. apply Hans. lia.
Qed.

(** *** Properties *)

(** X6.  The two read operations only ever read through the provider: whatever
    the hook was given and however the reads are answered, they never ask
    the wallet for a signature or a transaction and never call the FHEVM
    instance. *)
Theorem reads_only_read (props : Props) (h : Hook) :
  addsOnly isRead h (snd (loadExpenseRecords props h)) /\
  addsOnly isRead h (snd (loadEncryptedTotal props h)).
Proof.
  split; [by apply addsOnly_loadExpenseRecords|by apply addsOnly_loadEncryptedTotal].
Qed.

(** [Number] is the identity on the safe integers, and a template literal
    prints them digit by digit. *)
Lemma Number_safe n : isSafeInteger n -> Number n = n.
Proof.
  unfold isSafeInteger, Number. intros Hsafe. cbv zeta.
  assert (Z.log2 (Z.abs n) - 52 <= 0) as Hbits.
  { destruct (Z.eq_dec (Z.abs n) 0) as [->|Hpos]; [done|].
    assert (Z.log2 (Z.abs n) < 53); [|lia].
    apply Z.log2_lt_pow2; lia. }
  apply Z.leb_le in Hbits. by rewrite Hbits.
Qed.

Lemma numberToString_safe n : isSafeInteger n -> numberToString n = pretty n.
Proof.
  unfold isSafeInteger, numberToString. intros Hsafe.
  assert ((Z.abs n <? 2 ^ 53) = true) as -> by (apply Z.ltb_lt; lia). done.
Qed.

(** Beyond the safe integers [Number] rounds, to an even significand on a
    tie, and the template literal prints the shortest decimal. *)
Example Number_rounds :
  Number (2 ^ 53 + 1) = 2 ^ 53 /\
  Number (2 ^ 53 + 3) = 2 ^ 53 + 4 /\
  Number (2 ^ 64 - 1) = 2 ^ 64 /\
  Number (- (2 ^ 53 + 3)) = - (2 ^ 53 + 4).
Proof. vm_compute. repeat split; reflexivity. Qed.

Example numberToString_rounds :
  numberToString 1500 = "1500" /\
  numberToString (2 ^ 53) = "9007199254740992" /\
  numberToString (Number (2 ^ 64 - 1)) = "18446744073709552000" /\
  numberToString (10 ^ 21) = "1e+21" /\
  numberToString (2 ^ 70) = "1.1805916207174113e+21" /\
  numberToString (Number (10 ^ 23)) = "1e+23".
Proof. vm_compute. repeat split; reflexivity. Qed.

(** X7.  [loadExpenseRecords], when the count and every record read are
    answered, the count with a safe integer (up to which the loop counter
    is exact) and the timestamps with 256-bit words: it performs the count
    read and then one record read per index below the count, in order, and
    the list it stores has one record per index [0 .. count-1], each with
    its own index, the category of its answer and [Number] of its
    timestamp; nothing else changes.  [Number] rounds to the nearest double
    and is the identity on the safe integers. *)
Theorem loadExpenseRecords_builds_the_list (props : Props) (contract : string)
    (provider : Provider) (user : string) (count : Z) (answers : nat -> Z * string)
    (h : Hook) :
  canRead props contract provider user ->
  read_getExpenseRecordCount provider (length (effects h)) contract user = inr count ->
  isSafeInteger count ->
  (forall i, (i < Z.to_nat count)%nat ->
     read_getExpenseRecord provider (length (effects h) + 1 + i) contract user i
       = inr (answers i) /\
     isUint256 (fst (answers i))) ->
  fst (loadExpenseRecords props h) = Return tt /\
  expenseRecords (snd (loadExpenseRecords props h)) =
    map (fun i => {| timestamp := Number (fst (answers i)); category := snd (answers i);
                     index := i |})
        (seq 0 (Z.to_nat count)) /\
  effects (snd (loadExpenseRecords props h)) =
    effects h ++ GetExpenseRecordCount contract user ::
      map (GetExpenseRecord contract user) (seq 0 (Z.to_nat count)) /\
  message (snd (loadExpenseRecords props h)) = message h /\
  console (snd (loadExpenseRecords props h)) = console h /\
  (forall n, isSafeInteger n -> Number n = n).
Proof.
  intros (Hc & Hp & Ha) Hcount Hsafe Hans.
  unfold loadExpenseRecords. rewrite Hc, Hp, Ha.
  unfold tryCatch, loadExpenseRecords_try, mbind, M_bind.
  unfold perform. rewrite Hcount. cbv zeta. rewrite (Number_safe count Hsafe).
  rewrite (loadRecordsFrom_answered provider contract user answers).
  - simpl. repeat split; [by rewrite <- app_assoc|apply Number_safe].
  - intros j Hj. simpl. rewrite length_app. simpl. by apply Hans.
Qed.

(** X8.  [loadExpenseRecords] keeps no partial list: when a read fails, the
    records the hook held before are still there, untouched. *)
Theorem loadExpenseRecords_keeps_the_list_on_failure (props : Props) (contract : string)
    (provider : Provider) (user : string) (h : Hook) (e : JsError) (h' : Hook) :
  canRead props contract provider user ->
  loadExpenseRecords_try contract provider user h = (Throw e, h') ->
  expenseRecords (snd (loadExpenseRecords props h)) = expenseRecords h.
Proof.
  intros (Hc & Hp & Ha) Hthrow.
  unfold loadExpenseRecords. rewrite Hc, Hp, Ha.
  rewrite (tryCatch_throw _ _ _ _ _ Hthrow). simpl.
  unfold loadExpenseRecords_try, mbind, M_bind in Hthrow.
  pose proof (same_perform expenseRecords (GetExpenseRecordCount contract user)
                (fun t => read_getExpenseRecordCount provider t contract user)
                ltac:(done) h) as Hcount.
  destruct (perform (GetExpenseRecordCount contract user) _ h) as [[n|e1] h1];
    unfold same in Hcount; simpl in Hcount.
  - cbv zeta in Hthrow.
    pose proof (same_loadRecordsFrom expenseRecords provider contract user
                  (Z.to_nat (Number n))
                  ltac:(done) 0%nat [] h1) as Hloop.
    destruct (loadRecordsFrom provider contract user (Z.to_nat (Number n)) 0 [] h1)
      as [[records|e2] h2]; unfold same in Hloop; simpl in Hloop.
    + discriminate.
    + injection Hthrow as _ <-. congruence.
  - injection Hthrow as _ <-. congruence.
Qed.

(** X9.  Once its checks pass, [addExpense] clears the loading flag on every
    exit, normal or not; so does [loadEncryptedTotal] once it can read. *)
Theorem loading_flag_is_cleared (browser : Browser) (props : Props) (h : Hook) :
  (forall contract signer instance user provider amount category,
     canWrite props contract signer instance user provider ->
     leZero amount = false ->
     isLoading (snd (addExpense browser props amount category h)) = false) /\
  (forall contract provider user,
     canRead props contract provider user ->
     isLoading (snd (loadEncryptedTotal props h)) = false).
Proof.
  split.
  - intros contract signer instance user provider amount category
      ((Hc & Hp & Ha) & Hs & Hi) Hz.
    rewrite (addExpense_checked browser props contract signer instance user provider)
      by assumption.
    unfold tryFinally.
    by destruct (tryCatch _ _ h) as [r h'].
  - intros contract provider user (Hc & Hp & Ha).
    unfold loadEncryptedTotal. rewrite Hc, Hp, Ha. unfold tryFinally.
    by destruct (tryCatch _ _ h) as [r h'].
Qed.

(** X10.  [decryptTotal] never encrypts, never sends a transaction and never
    waits for one, whatever the hook was given and however it ends. *)
Theorem decryptTotal_never_writes (browser : Browser) (props : Props) (h : Hook) :
  addsOnly isDecryptStep h (snd (decryptTotal browser props h)).
Proof.
  revert h. change (preserves (addsOnly isDecryptStep) (decryptTotal browser props)).
  unfold decryptTotal, decryptTotal_try, decryptTotal_catch, asHex.
  adds_only.
Qed.

Lemma addExpense_submit_steps contract signer instance user provider amount category :
  preserves (addsOnly isAddStep)
    (addExpense_submit contract signer instance user provider amount category) /\
  preserves (sendsAtMost 1)
    (addExpense_submit contract signer instance user provider amount category).
Proof.
  split.
  - unfold addExpense_submit. adds_only.
  - intros h. unfold addExpense_submit, mbind, M_bind, perform, setIsLoading, setMessage,
      throw, sendsAtMost. simpl.
    repeat (simpl; match goal with
           | |- context [match ?x with inl _ => _ | inr _ => _ end] => destruct x
           | |- context [if ?b then _ else _] => destruct b
           | |- context [match ?x with Some _ => _ | None => _ end] => destruct x
           | |- context [match ?x with [] => _ | _ :: _ => _ end] => destruct x
           end);
      (eexists; split; [simpl; rewrite <- ?app_assoc; reflexivity|simpl; lia]).
Qed.

Lemma addExpense_refresh_steps browser props contract provider user :
  preserves (addsOnly (fun e => isAddStep e && negb (isSend e)))
    (tryCatch (addExpense_refresh browser props contract provider user)
       addExpense_refresh_catch).
Proof.
  unfold addExpense_refresh, addExpense_refresh_catch, asHex.
  repeat first
    [ apply addsOnly_loadExpenseRecords; intros [] ?; done
    | adds_only ].
Qed.

Lemma addsOnly_weaken (Q Q' : Effect -> bool) h h' :
  (forall e, Q e = true -> Q' e = true) -> addsOnly Q h h' -> addsOnly Q' h h'.
Proof.
  intros HQ (new & E & F). exists new. split; [done|].
  eapply Forall_impl; [exact F|]. intros e. apply HQ.
Qed.

Lemma sendsAtMost_then_none n h1 h2 h3 :
  sendsAtMost n h1 h2 ->
  addsOnly (fun e => isAddStep e && negb (isSend e)) h2 h3 ->
  sendsAtMost n h1 h3.
Proof.
  intros (n1 & E1 & L1) (n2 & E2 & F2). exists (n1 ++ n2).
  rewrite E2, E1, app_assoc. split; [done|].
  rewrite filter_app, length_app.
  assert (filter (fun e => isSend e = true) n2 = []) as ->; [|simpl; lia].
  clear E2. induction F2 as [|e l He Hl IH]; [done|].
  rewrite filter_cons, IH. apply andb_prop in He as [_ He].
  destruct (isSend e); [done|]. by rewrite decide_False.
Qed.

(** X11.  [addExpense] never asks for a typed-data signature, a key pair or a
    decryption, and it sends at most one transaction, whatever the hook was
    given and however the calls it makes are answered. *)
Theorem addExpense_sends_at_most_once (browser : Browser) (props : Props)
    (amount : number) (category : string) (h : Hook) :
  addsOnly isAddStep h (snd (addExpense browser props amount category h)) /\
  sendsAtMost 1 h (snd (addExpense browser props amount category h)).
Proof.
  assert (Hquiet : forall A line text (h0 : Hook),
            effects (snd (@reject A line text h0)) = effects h0).
  { intros A [l|] text h0; reflexivity. }
  assert (Hrejected : forall A line text,
            addsOnly isAddStep h (snd (@reject A line text h)) /\
            sendsAtMost 1 h (snd (@reject A line text h))).
  { intros A line text. split; exists []; rewrite Hquiet, app_nil_r; (split; [done|]);
      [constructor|simpl; lia]. }
  unfold addExpense.
  destruct (truthy (contractAddress props)) as [contract|] eqn:Hc; [|apply Hrejected].
  destruct (ethersSigner props) as [signer|]; [|apply Hrejected].
  destruct (fhevmInstance props) as [instance|]; [|apply Hrejected].
  destruct (truthy (address props)) as [user|] eqn:Ha; [|apply Hrejected].
  destruct (ethersProvider props) as [provider|] eqn:Hp; [|apply Hrejected].
  destruct (leZero amount); [apply Hrejected|].
  unfold tryFinally, tryCatch, addExpense_try, mbind, M_bind. rewrite Hc, Hp, Ha.
  destruct (addExpense_submit_steps contract signer instance user provider amount category)
    as [Hsteps Hsends].
  specialize (Hsteps h). specialize (Hsends h).
  destruct (addExpense_submit contract signer instance user provider amount category h)
    as [[[]|e] h1]; simpl in Hsteps, Hsends.
  - pose proof (addExpense_refresh_steps browser props contract provider user h1) as Hrest.
    fold (tryCatch (addExpense_refresh browser props contract provider user)
            addExpense_refresh_catch h1).
    destruct (tryCatch (addExpense_refresh browser props contract provider user)
                addExpense_refresh_catch h1) as [[[]|e] h2]; simpl in *.
    + split.
      * etrans; [exact Hsteps|].
        eapply addsOnly_weaken; [|exact Hrest]. intros e He. by apply andb_prop in He as [? _].
      * destruct (sendsAtMost_then_none 1 h h1 h2 Hsends Hrest) as (new & E & L).
        by exists new.
    + split.
      * etrans; [exact Hsteps|].
        eapply addsOnly_weaken; [|exact Hrest]. intros e' He. by apply andb_prop in He as [? _].
      * destruct (sendsAtMost_then_none 1 h h1 h2 Hsends Hrest) as (new & E & L).
        by exists new.
  - split.
    + destruct Hsteps as (new & E & F). by exists new.
    + destruct Hsends as (new & E & L). by exists new.
Qed.

(** *** Strings *)

Lemma length_toLowerCase s : String.length (toLowerCase s) = String.length s.
Proof. induction s as [|c s IH]; simpl; congruence. Qed.

Lemma includes_unfold needle hay :
  includes needle hay =
  String.prefix needle hay ||
  match hay with EmptyString => false | String _ rest => includes needle rest end.
Proof. by destruct hay. Qed.

Lemma prefix_includes_tail p b : forall s,
  String.prefix (p +:+ b) s = true -> includes b s = true.
Proof.
  induction p as [|c p IH]; intros s Hp.
  - change ("" +:+ b) with b in Hp. by rewrite includes_unfold, Hp.
  - destruct s as [|c' s]; [done|].
    simpl in Hp. destruct (Ascii.ascii_dec c c'); [|done].
    rewrite includes_unfold, (IH s Hp). apply orb_true_r.
Qed.

(** A string that contains [p ++ b] contains [b]. *)
Lemma includes_tail p b s : includes (p +:+ b) s = true -> includes b s = true.
Proof.
  induction s as [|c s IH]; intros H; rewrite includes_unfold in H.
  - rewrite orb_false_r in H. by apply (prefix_includes_tail p b).
  - apply orb_prop in H as [H|H].
    + by apply (prefix_includes_tail p b).
    + rewrite includes_unfold, (IH H). apply orb_true_r.
Qed.

Lemma eqb_0x_length code : String.eqb code "0x" = true -> String.length code = 2%nat.
Proof. intros H. apply String.eqb_eq in H. by subst. Qed.

(** *** More properties *)

(** X12.  [addExpense] sends nothing to an address without code, and nothing
    when the encryption came back without a handle or without a proof.  It
    stops after the encryption and the code read.  A code of at most two
    characters gives the "Contract not deployed at ..." error, whatever the
    encryption returned; with a longer code, a missing handle or a missing
    or empty proof gives "Encryption failed - missing handle or proof".
    The error is thrown and shown behind "Error: ". *)
Theorem nothing_is_sent_without_code_or_proof (browser : Browser) (props : Props)
    (contract : string) (signer : Signer) (instance : Instance) (user : string)
    (provider : Provider) (amount : number) (category : string)
    (encrypted : Encrypted) (code : string) (h : Hook) :
  canWrite props contract signer instance user provider ->
  leZero amount = false ->
  encrypt32 instance (length (effects h)) contract user amount = inr encrypted ->
  getCode provider (length (effects h) + 1) contract = inr code ->
  ((String.length code <= 2)%nat ->
   fst (addExpense browser props amount category h)
     = Throw (newError (notDeployedMessage contract)) /\
   message (snd (addExpense browser props amount category h))
     = Some ("Error: " +:+ notDeployedMessage contract) /\
   effects (snd (addExpense browser props amount category h)) =
     effects h ++ [Encrypt contract user amount; GetCode contract]) /\
  ((2 < String.length code)%nat ->
   handles encrypted = [] \/ inputProof encrypted = None \/ inputProof encrypted = Some [] ->
   fst (addExpense browser props amount category h)
     = Throw (newError "Encryption failed - missing handle or proof") /\
   message (snd (addExpense browser props amount category h))
     = Some "Error: Encryption failed - missing handle or proof" /\
   effects (snd (addExpense browser props amount category h)) =
     effects h ++ [Encrypt contract user amount; GetCode contract]).
Proof.
  intros ((Hc & Hp & Ha) & Hs & Hi) Hz Henc Hcode.
  rewrite (addExpense_checked browser props contract signer instance user provider)
    by assumption.
  unfold tryFinally, tryCatch, addExpense_try, addExpense_submit, mbind, M_bind, perform,
    setIsLoading, setMessage, throw.
  simpl. rewrite Henc. simpl. rewrite length_app. simpl. rewrite Hcode.
  split.
  - intros Hlen. apply Nat.leb_le in Hlen. rewrite Hlen, orb_true_r. simpl.
    repeat split. by rewrite <- app_assoc.
  - intros Hlen Hbad.
    assert (String.eqb code "0x" = false) as ->.
    { destruct (String.eqb code "0x") eqn:E; [|done].
      apply eqb_0x_length in E. lia. }
    apply Nat.leb_gt in Hlen. rewrite Hlen. simpl.
    destruct Hbad as [Hbad|[Hbad|Hbad]]; rewrite Hbad; simpl.
    + repeat split. by rewrite <- app_assoc.
    + destruct (head (handles encrypted)); simpl;
        (repeat split; by rewrite <- app_assoc).
    + destruct (head (handles encrypted)); simpl;
        (repeat split; by rewrite <- app_assoc).
Qed.

(** X13.  [decryptTotal] rejects a handle that is not 66 characters long before
    any key is generated or any signature is requested: it stops after the
    two reads, throws the "Invalid handle format" error naming the handle,
    and leaves both totals as they were. *)
Theorem decryptTotal_rejects_malformed_handle (browser : Browser) (props : Props)
    (contract : string) (signer : Signer) (instance : Instance) (user : string)
    (provider : Provider) (raw : string) (h : Hook) :
  canWrite props contract signer instance user provider ->
  read_hasInitialized provider (length (effects h)) contract user = inr true ->
  read_getEncryptedMonthlyTotal provider (length (effects h) + 1) contract user
    = inr (BString raw) ->
  String.length raw <> 66%nat ->
  exists handle,
    (handle = raw \/ handle = toLowerCase raw) /\
    fst (decryptTotal browser props h) =
      Throw (newError ("Invalid handle format: " +:+ handle
                       +:+ ". Expected 66 characters (0x + 64 hex chars)")) /\
    effects (snd (decryptTotal browser props h)) =
      effects h ++ [HasInitialized contract user; GetEncryptedMonthlyTotal contract user] /\
    encryptedTotal (snd (decryptTotal browser props h)) = encryptedTotal h /\
    decryptedTotal (snd (decryptTotal browser props h)) = decryptedTotal h.
Proof.
  intros ((Hc & Hp & Ha) & Hs & Hi) Hinit Htotal Hlen.
  rewrite (decryptTotal_checked browser props contract provider instance signer user)
    by assumption.
  unfold tryCatch, decryptTotal_try, asHex, mbind, M_bind, perform, setMessage, throw, mret,
    M_ret.
  simpl. rewrite Hinit. simpl. rewrite length_app. simpl. rewrite Htotal. simpl.
  set (handle := if negb (String.eqb raw "") && String.prefix "0x" raw
                 then toLowerCase raw else raw).
  assert (Hhandle : handle = raw \/ handle = toLowerCase raw).
  { subst handle. destruct (negb (String.eqb raw "") && String.prefix "0x" raw); auto. }
  assert (Hbad : String.eqb handle "" || String.eqb handle "0x"
                 || negb (String.length handle =? 66)%nat = true).
  { assert (String.length handle <> 66%nat) as Hl.
    { destruct Hhandle as [->| ->]; [done|by rewrite length_toLowerCase]. }
    apply Nat.eqb_neq in Hl. rewrite Hl. apply orb_true_r. }
  rewrite Hbad. exists handle. simpl.
  repeat split; [done|by rewrite <- app_assoc].
Qed.

(** X14.  The permission message of [decryptTotal] is shown exactly for the
    errors whose text contains "authorized" anywhere, "unauthorized"
    included; every other error is shown behind "Error decrypting: ". *)
Theorem permission_message_iff_authorized (e : JsError) :
  (includes "authorized" (orElse (e_message e) (e_string e)) = true ->
   decryptFailureMessage e = notAuthorizedMessage) /\
  (includes "authorized" (orElse (e_message e) (e_string e)) = false ->
   decryptFailureMessage e = "Error decrypting: " +:+ orElse (e_message e) (e_string e)).
Proof.
  unfold decryptFailureMessage. split; intros H.
  - rewrite H. by rewrite orb_true_r.
  - rewrite H, orb_false_r.
    destruct (includes "not authorized" (orElse (e_message e) (e_string e))) eqn:Hnot;
      [|done].
    apply (includes_tail "not " "authorized") in Hnot. congruence.
Qed.

(** X15.  [loadEncryptedTotal] on a reachable node.  With no code at the
    address it shows the "not deployed" message and forgets the encrypted
    total, making no contract read; with code and a user that is not
    initialized it forgets both totals and shows nothing. *)
Theorem loadEncryptedTotal_forgets_totals (props : Props) (contract : string)
    (provider : Provider) (user : string) (block : Z) (code : string) (h : Hook) :
  canRead props contract provider user ->
  getBlockNumber provider (length (effects h)) = inr block ->
  getCode provider (length (effects h) + 1) contract = inr code ->
  ((String.length code <= 2)%nat ->
   encryptedTotal (snd (loadEncryptedTotal props h)) = None /\
   decryptedTotal (snd (loadEncryptedTotal props h)) = decryptedTotal h /\
   message (snd (loadEncryptedTotal props h)) = Some (notDeployedMessage contract) /\
   effects (snd (loadEncryptedTotal props h)) =
     effects h ++ [GetBlockNumber; GetCode contract]) /\
  ((2 < String.length code)%nat ->
   read_hasInitialized provider (length (effects h) + 2) contract user = inr false ->
   encryptedTotal (snd (loadEncryptedTotal props h)) = None /\
   decryptedTotal (snd (loadEncryptedTotal props h)) = None /\
   message (snd (loadEncryptedTotal props h)) = message h /\
   effects (snd (loadEncryptedTotal props h)) =
     effects h ++ [GetBlockNumber; GetCode contract; HasInitialized contract user]).
Proof.
  intros (Hc & Hp & Ha) Hblock Hcode.
  unfold loadEncryptedTotal. rewrite Hc, Hp, Ha.
  unfold loadEncryptedTotal_try.
  unfold tryFinally, tryCatch, mbind, M_bind, perform,
    setIsLoading, setMessage, setEncryptedTotal, setDecryptedTotal, mret, M_ret.
  simpl. rewrite Hblock. simpl. rewrite length_app. simpl. rewrite Hcode.
  split.
  - intros Hlen. apply Nat.leb_le in Hlen. rewrite Hlen, orb_true_r. simpl.
    repeat split. by rewrite <- app_assoc.
  - intros Hlen Hinit.
    assert (String.eqb code "0x" = false) as ->.
    { destruct (String.eqb code "0x") eqn:E; [|done].
      apply eqb_0x_length in E. lia. }
    apply Nat.leb_gt in Hlen. rewrite Hlen. simpl.
    rewrite !length_app. simpl.
    replace (length (effects h) + 1 + 1)%nat with (length (effects h) + 2)%nat by lia.
    rewrite Hinit. simpl. repeat split. by rewrite <- !app_assoc.
Qed.

(** X16.  On the local development chain (id 31337) an unreachable node ends
    [loadEncryptedTotal] after its first read: it shows the Hardhat
    guidance as it is, without the "Error loading total: " prefix, returns
    normally and has the loading flag cleared. *)
Theorem unreachable_local_node (props : Props) (contract : string)
    (provider : Provider) (user : string) (e : JsError) (h : Hook) :
  canRead props contract provider user ->
  chainId props = 31337 ->
  getBlockNumber provider (length (effects h)) = inl e ->
  fst (loadEncryptedTotal props h) = Return tt /\
  message (snd (loadEncryptedTotal props h)) = Some hardhatMessage /\
  isLoading (snd (loadEncryptedTotal props h)) = false /\
  effects (snd (loadEncryptedTotal props h)) = effects h ++ [GetBlockNumber] /\
  encryptedTotal (snd (loadEncryptedTotal props h)) = encryptedTotal h.
Proof.
  intros (Hc & Hp & Ha) Hchain Hblock.
  unfold loadEncryptedTotal. rewrite Hc, Hp, Ha.
  unfold loadEncryptedTotal_try.
  unfold tryFinally, tryCatch, mbind, M_bind, perform,
    setIsLoading, setMessage, consoleError, mret, M_ret.
  simpl. rewrite Hblock, Hchain. simpl. done.
Qed.

(** The runs of [decryptTotal] that return normally, one goal per path
    through its [try] block. *)
Ltac decrypt_returned Hrun Hc Hp Ha Hs Hi :=
  rewrite (decryptTotal_checked _ _ _ _ _ _ _ Hc Hp Hi Hs Ha) in Hrun;
  unfold tryCatch in Hrun;
  match type of Hrun with
  | context [decryptTotal_try ?b ?p ?c ?pr ?i ?sg ?u ?h] =>
    let Htry := fresh "Htry" in
    destruct (decryptTotal_try b p c pr i sg u h) as [[[]|?] ?] eqn:Htry; [|discriminate];
    injection Hrun as <-;
    unfold decryptTotal_try, asHex in Htry;
    unfold mbind, M_bind, perform, setMessage, setEncryptedTotal, setDecryptedTotal, throw,
      mret, M_ret in Htry;
    repeat (simpl in Htry; match type of Htry with
      | context [match ?x with inl _ => _ | inr _ => _ end] => destruct x eqn:?
      | context [match ?x with BString _ => _ | BRaw _ => _ end] => destruct x eqn:?
      | context [match ?x with Some _ => _ | None => _ end] => destruct x eqn:?
      | context [if ?b then _ else _] => destruct b eqn:?
      end; try discriminate);
    simpl in Htry; injection Htry as <-; simpl
  end.

Lemma decryptTotal_returned_value browser props contract signer instance user provider h h' :
  canWrite props contract signer instance user provider ->
  decryptTotal browser props h = (Return tt, h') ->
  exists value, decryptedTotal h' = Some value.
Proof.
  intros ((Hc & Hp & Ha) & Hs & Hi) Hrun.
  decrypt_returned Hrun Hc Hp Ha Hs Hi; by eexists.
Qed.

(** X17.  When [decryptTotal] returns normally past its checks, it has asked
    for the decryption of exactly one handle, the 66-character handle it
    now shows as the encrypted total, for this contract and this user and
    for ten days.  With [value] the 256-bit word the answer gives for that
    handle, or 0 when the answer has none, the total it stores is
    [Number(value)] and its message ends with that number as a template
    literal prints it; for a safe integer these are [value] itself and its
    decimal digits. *)
Theorem decryptTotal_shows_the_answer (browser : Browser) (props : Props)
    (contract : string) (signer : Signer) (instance : Instance) (user : string)
    (provider : Provider) (h h' : Hook) :
  canWrite props contract signer instance user provider ->
  decryptTotal browser props h = (Return tt, h') ->
  exists handle request result t,
    encryptedTotal h' = Some (BString handle) /\
    String.length handle = 66%nat /\
    last (effects h') = Some (UserDecrypt request) /\
    userDecrypt instance t request = inr result /\
    dc_handleContractPairs request = [(handle, contract)] /\
    dc_contractAddresses request = [contract] /\
    dc_userAddress request = user /\
    dc_durationDays request = "10" /\
    (isUint256 (default 0 (result !! handle)) ->
     decryptedTotal h' = Some (Number (default 0 (result !! handle))) /\
     message h' =
       Some ("Decrypted monthly total: "
             +:+ numberToString (Number (default 0 (result !! handle))))) /\
    (isSafeInteger (default 0 (result !! handle)) ->
     decryptedTotal h' = Some (default 0 (result !! handle)) /\
     message h' =
       Some ("Decrypted monthly total: " +:+ pretty (default 0 (result !! handle)))).
Proof.
  intros ((Hc & Hp & Ha) & Hs & Hi) Hrun.
  decrypt_returned Hrun Hc Hp Ha Hs Hi;
    repeat match goal with
    | H : _ || _ = false |- _ => apply orb_false_elim in H as [? ?]
    | H : negb _ = false |- _ => apply negb_false_iff in H
    | H : (_ =? _)%nat = true |- _ => apply Nat.eqb_eq in H
    end;
    (do 4 eexists;
     split; [reflexivity|]; split; [eassumption|];
     split; [by rewrite last_snoc|]; split; [eassumption|];
     do 4 (split; [reflexivity|]);
     split; [done|];
     intros Hsafe; by rewrite (Number_safe _ Hsafe), (numberToString_safe _ Hsafe)).
Qed.

Lemma same_loadExpenseRecords_decrypted props :
  preserves (same decryptedTotal) (loadExpenseRecords props).
Proof.
  unfold loadExpenseRecords, loadExpenseRecords_try, loadExpenseRecords_catch.
  destruct (truthy (contractAddress props)) as [contract|]; [|by intros h].
  destruct (ethersProvider props) as [provider|]; [|by intros h].
  destruct (truthy (address props)) as [user|]; [|by intros h].
  apply preserves_tryCatch; [apply _| |by intros e h].
  apply preserves_bind; [apply _|by apply same_perform|]. intros n.
  apply preserves_bind; [apply _|by apply same_loadRecordsFrom|]. by intros records h.
Qed.

Lemma same_addExpense_decrypted browser props amount category :
  preserves (same decryptedTotal) (addExpense browser props amount category).
Proof.
  unfold addExpense, reject, addExpense_try, addExpense_submit, addExpense_refresh,
    addExpense_refresh_catch, addExpense_catch, asHex.
  repeat first
    [ apply same_loadExpenseRecords_decrypted
    | apply same_perform; done
    | keeps_same ].
Qed.

(** *** The properties at the sample wallets and nodes *)

Import ClientSamples PageSamples.

Lemma connected_canWrite provider signer :
  canWrite (connected provider signer) ledger signer relayer account provider.
Proof. by repeat split. Qed.

Lemma connected_canRead provider signer :
  canRead (connected provider signer) ledger provider account.
Proof. by repeat split. Qed.

Lemma loadExpenseRecords_builds_the_list_witness :
  expenseRecords (snd (loadExpenseRecords (connected node wallet) initial)) =
    [{| timestamp := 1700000000; category := "materials"; index := 0 |}] /\
  effects (snd (loadExpenseRecords (connected node wallet) initial)) =
    [GetExpenseRecordCount ledger account; GetExpenseRecord ledger account 0].
Proof.
  assert (Hsafe : isSafeInteger 1) by (unfold isSafeInteger; lia).
  assert (Hword : isUint256 1700000000) by (unfold isUint256; lia).
  destruct (loadExpenseRecords_builds_the_list (connected node wallet) ledger node account 1
              (fun _ => (1700000000, "materials")) initial
              (connected_canRead node wallet) eq_refl Hsafe
              (fun i _ => conj eq_refl Hword))
    as (_ & Hrecords & Heffects & _).
  exact (conj Hrecords Heffects).
Defined.

Lemma loadExpenseRecords_keeps_the_list_on_failure_witness :
  fst (loadExpenseRecords_try ledger recordlessNode account
         (snd (loadExpenseRecords (connected node wallet) initial))) = Throw offline /\
  expenseRecords (snd (loadExpenseRecords (connected recordlessNode wallet)
                         (snd (loadExpenseRecords (connected node wallet) initial)))) =
    [{| timestamp := 1700000000; category := "materials"; index := 0 |}].
Proof.
  evaluated Hthrow (loadExpenseRecords_try ledger recordlessNode account
                      (snd (loadExpenseRecords (connected node wallet) initial))).
  split; [by rewrite Hthrow|].
  rewrite (loadExpenseRecords_keeps_the_list_on_failure (connected recordlessNode wallet)
             ledger recordlessNode account _ _ _ (connected_canRead recordlessNode wallet)
             Hthrow).
  vm_compute. reflexivity.
Defined.

Lemma loading_flag_is_cleared_witness :
  isLoading (snd (addExpense browser (connected node refusingWallet) (Finite 1000)
                    "materials" initial)) = false /\
  isLoading (snd (loadEncryptedTotal (connected deadNode wallet) initial)) = false.
Proof.
  destruct (loading_flag_is_cleared browser (connected node refusingWallet) initial)
    as [Hadd _].
  destruct (loading_flag_is_cleared browser (connected deadNode wallet) initial)
    as [_ Hload].
  split.
  - exact (Hadd ledger refusingWallet relayer account node (Finite 1000) "materials"
             (connected_canWrite node refusingWallet) eq_refl).
  - exact (Hload ledger deadNode account (connected_canRead deadNode wallet)).
Defined.

Lemma nothing_is_sent_without_code_or_proof_witness :
  (fst (addExpense browser (connected emptyNode wallet) (Finite 1000) "materials" initial)
     = Throw (newError (notDeployedMessage ledger)) /\
   message (snd (addExpense browser (connected emptyNode wallet) (Finite 1000)
                   "materials" initial)) = Some ("Error: " +:+ notDeployedMessage ledger) /\
   effects (snd (addExpense browser (connected emptyNode wallet) (Finite 1000)
                   "materials" initial)) =
     effects initial ++ [Encrypt ledger account (Finite 1000); GetCode ledger]) /\
  (fst (addExpense browser proofless (Finite 1000) "materials" initial)
     = Throw (newError "Encryption failed - missing handle or proof") /\
   message (snd (addExpense browser proofless (Finite 1000) "materials" initial))
     = Some "Error: Encryption failed - missing handle or proof" /\
   effects (snd (addExpense browser proofless (Finite 1000) "materials" initial)) =
     effects initial ++ [Encrypt ledger account (Finite 1000); GetCode ledger]).
Proof.
  destruct (nothing_is_sent_without_code_or_proof browser (connected emptyNode wallet)
              ledger wallet relayer account emptyNode (Finite 1000) "materials"
              {| handles := [[Byte.x9a; Byte.x3f]]; inputProof := Some [Byte.x01] |} "0x"
              initial (connected_canWrite emptyNode wallet) eq_refl eq_refl eq_refl)
    as [Hempty _].
  destruct (nothing_is_sent_without_code_or_proof browser proofless
              ledger wallet prooflessRelayer account node (Finite 1000) "materials"
              {| handles := [[Byte.x9a; Byte.x3f]]; inputProof := Some [] |} "0x6080604052"
              initial ltac:(by repeat split) eq_refl eq_refl eq_refl)
    as [_ Hproofless].
  exact (conj (Hempty ltac:(simpl; lia))
              (Hproofless ltac:(simpl; lia) (or_intror (or_intror eq_refl)))).
Defined.

Lemma decryptTotal_rejects_malformed_handle_witness :
  exists handle,
    (handle = "0x9A3F" \/ handle = toLowerCase "0x9A3F") /\
    fst (decryptTotal browser (connected shortHandleNode wallet) initial) =
      Throw (newError ("Invalid handle format: " +:+ handle
                       +:+ ". Expected 66 characters (0x + 64 hex chars)")) /\
    effects (snd (decryptTotal browser (connected shortHandleNode wallet) initial)) =
      effects initial ++ [HasInitialized ledger account;
                          GetEncryptedMonthlyTotal ledger account] /\
    encryptedTotal (snd (decryptTotal browser (connected shortHandleNode wallet) initial))
      = encryptedTotal initial /\
    decryptedTotal (snd (decryptTotal browser (connected shortHandleNode wallet) initial))
      = decryptedTotal initial.
Proof.
  apply (decryptTotal_rejects_malformed_handle browser (connected shortHandleNode wallet)
           ledger wallet relayer account shortHandleNode "0x9A3F" initial
           (connected_canWrite shortHandleNode wallet) eq_refl eq_refl).
  simpl. lia.
Defined.

Lemma permission_message_iff_authorized_witness :
  decryptFailureMessage (newError "User is unauthorized to decrypt") = notAuthorizedMessage /\
  decryptFailureMessage offline = "Error decrypting: Failed to fetch".
Proof.
  split.
  - apply (proj1 (permission_message_iff_authorized
                    (newError "User is unauthorized to decrypt"))).
    vm_compute. reflexivity.
  - apply (proj2 (permission_message_iff_authorized offline)).
    vm_compute. reflexivity.
Defined.

Lemma loadEncryptedTotal_forgets_totals_witness :
  encryptedTotal (snd (loadEncryptedTotal (connected emptyNode wallet) decrypted)) = None /\
  decryptedTotal (snd (loadEncryptedTotal (connected emptyNode wallet) decrypted)) = Some 1500 /\
  encryptedTotal (snd (loadEncryptedTotal (connected freshNode wallet) decrypted)) = None /\
  decryptedTotal (snd (loadEncryptedTotal (connected freshNode wallet) decrypted)) = None.
Proof.
  destruct (loadEncryptedTotal_forgets_totals (connected emptyNode wallet) ledger emptyNode
              account 12 "0x" decrypted (connected_canRead emptyNode wallet)
              eq_refl eq_refl) as [Hempty _].
  destruct (loadEncryptedTotal_forgets_totals (connected freshNode wallet) ledger freshNode
              account 12 "0x6080604052" decrypted (connected_canRead freshNode wallet)
              eq_refl eq_refl) as [_ Hfresh].
  destruct (Hempty ltac:(simpl; lia)) as (H1 & H2 & _).
  destruct (Hfresh ltac:(simpl; lia) eq_refl) as (H3 & H4 & _).
  rewrite H2 in *. exact (conj H1 (conj eq_refl (conj H3 H4))).
Defined.

Lemma unreachable_local_node_witness :
  fst (loadEncryptedTotal localStopped initial) = Return tt /\
  message (snd (loadEncryptedTotal localStopped initial)) = Some hardhatMessage /\
  isLoading (snd (loadEncryptedTotal localStopped initial)) = false /\
  effects (snd (loadEncryptedTotal localStopped initial)) = effects initial ++ [GetBlockNumber] /\
  encryptedTotal (snd (loadEncryptedTotal localStopped initial)) = encryptedTotal initial.
Proof.
  apply (unreachable_local_node localStopped ledger deadNode account offline initial);
    [by repeat split|reflexivity|reflexivity].
Defined.

Lemma decryptTotal_shows_the_answer_witness :
  exists handle request result t,
    encryptedTotal decrypted = Some (BString handle) /\
    String.length handle = 66%nat /\
    last (effects decrypted) = Some (UserDecrypt request) /\
    userDecrypt relayer t request = inr result /\
    dc_handleContractPairs request = [(handle, ledger)] /\
    dc_contractAddresses request = [ledger] /\
    dc_userAddress request = account /\
    dc_durationDays request = "10" /\
    (isUint256 (default 0 (result !! handle)) ->
     decryptedTotal decrypted = Some (Number (default 0 (result !! handle))) /\
     message decrypted =
       Some ("Decrypted monthly total: "
             +:+ numberToString (Number (default 0 (result !! handle))))) /\
    (isSafeInteger (default 0 (result !! handle)) ->
     decryptedTotal decrypted = Some (default 0 (result !! handle)) /\
     message decrypted =
       Some ("Decrypted monthly total: " +:+ pretty (default 0 (result !! handle)))).
Proof.
  assert (Hrun : decryptTotal browser (connected node wallet) initial = (Return tt, decrypted))
    by (vm_compute; reflexivity).
  exact (decryptTotal_shows_the_answer browser (connected node wallet) ledger wallet relayer
           account node initial decrypted (connected_canWrite node wallet) Hrun).
Defined.

End ClientExtras.

(** ** How the client hook handles failures *)
Module ClientFailures.
Import Client ClientTrace ClientProofs ClientExtras.

#[local] Existing Instance same_preorder.

Section Operations.

Context (browser : Browser) (props : Props).




End Operations.


(** *** The theorem at the sample wallets and nodes *)

Import ClientSamples PageSamples.


End ClientFailures.

(** ** Properties of the page and the dialog *)
Module PageProofs.
Import Client ClientTrace ClientProofs ClientExtras Page.

(** How a handler of the page ends, from how the operation it calls ends. *)
Lemma handleDecryptTotal_run browser props v :
  handleDecryptTotal browser props v =
  (Return tt,
   {| hook := snd (decryptTotal browser props (hook v));
      toasts := toasts v ++
        [match fst (decryptTotal browser props (hook v)) with
         | Return _ => decryptedToast (decryptedTotal (hook v))
         | Throw e => decryptFailedToast e
         end];
      showNewExpense := showNewExpense v; form_amount := form_amount v;
      form_category := form_category v; form_error := form_error v |}).
Proof.
  unfold handleDecryptTotal, tryCatchP, mbind, P_bind, liftHook, toast.
  by destruct (decryptTotal browser props (hook v)) as [[[]|e] h'].
Qed.

Lemma handleAddExpense_run browser props amount category v :
  handleAddExpense browser props amount category v =
  (Return tt,
   {| hook := snd (addExpense browser props amount category (hook v));
      toasts := toasts v ++
        [match fst (addExpense browser props amount category (hook v)) with
         | Return _ => addedToast
         | Throw e => addFailedToast e
         end];
      showNewExpense := showNewExpense v; form_amount := form_amount v;
      form_category := form_category v; form_error := form_error v |}).
Proof.
  unfold handleAddExpense, tryCatchP, mbind, P_bind, liftHook, toast.
  by destruct (addExpense browser props amount category (hook v)) as [[[]|e] h'].
Qed.

Lemma decryptTotal_unchecked browser props h :
  truthy (contractAddress props) = None \/ ethersProvider props = None \/
  fhevmInstance props = None \/ ethersSigner props = None \/
  truthy (address props) = None ->
  decryptTotal browser props h = setMessage missingRequirementsMessage h.
Proof.
  intros Hmissing. unfold decryptTotal.
  destruct (truthy (contractAddress props)) as [contract|]; [|done].
  destruct (ethersProvider props) as [provider|]; [|done].
  destruct (fhevmInstance props) as [instance|]; [|done].
  destruct (ethersSigner props) as [signer|]; [|done].
  destruct (truthy (address props)) as [user|]; [|done].
  destruct Hmissing as [H|[H|[H|[H|H]]]]; discriminate.
Qed.

(** X18.  The dialog validates before it submits: with an amount that does not
    parse to a number above zero, or with no category, it only sets its
    error text; [onSubmit] is not called, the dialog stays open and the
    fields keep what was typed. *)
Theorem dialog_rejects_before_submitting (parseFloat : string -> number)
    (onSubmit : number -> string -> P unit) (onOpenChange : bool -> P unit) (v : View) :
  isNaN (parseFloat (form_amount v)) || leZero (parseFloat (form_amount v)) = true \/
  form_category v = "" ->
  exists text,
    handleSubmit parseFloat onSubmit onOpenChange v =
    (Return tt,
     {| hook := hook v; toasts := toasts v; showNewExpense := showNewExpense v;
        form_amount := form_amount v; form_category := form_category v;
        form_error := Some text |}).
Proof.
  intros Hbad. unfold handleSubmit, mbind, P_bind, setError. simpl.
  destruct (isNaN (parseFloat (form_amount v)) || leZero (parseFloat (form_amount v))).
  - by eexists.
  - destruct Hbad as [Hbad|Hbad]; [done|]. rewrite Hbad. by eexists.
Qed.

(** X19.  On the page, a valid form always closes: [handleAddExpense] catches
    what [addExpense] throws, so the dialog resets its fields, shows no
    error of its own and closes whether the expense was added or not; the
    handler shows exactly one toast, success or "Failed to add expense"
    with the error's message. *)
Theorem dialog_closes_whatever_the_add_does (browser : Browser) (props : Props)
    (parseFloat : string -> number) (v : View) :
  isNaN (parseFloat (form_amount v)) || leZero (parseFloat (form_amount v)) = false ->
  form_category v <> "" ->
  submitNewExpense browser props parseFloat v =
  (Return tt,
   {| hook := snd (addExpense browser props (parseFloat (form_amount v))
                     (form_category v) (hook v));
      toasts := toasts v ++
        [match fst (addExpense browser props (parseFloat (form_amount v))
                      (form_category v) (hook v)) with
         | Return _ => addedToast
         | Throw e => addFailedToast e
         end];
      showNewExpense := false; form_amount := ""; form_category := "materials";
      form_error := None |}).
Proof.
  intros Hvalid Hcat. unfold submitNewExpense, handleSubmit.
  unfold mbind at 1, P_bind at 1, setError at 1. simpl. rewrite Hvalid.
  assert (String.eqb (form_category v) "" = false) as ->.
  { by apply String.eqb_neq. }
  unfold tryCatchP at 1, mbind, P_bind.
  rewrite handleAddExpense_run. reflexivity.
Qed.

(** X20.  [handleDecryptTotal] never throws, and the success toast it shows after
    a decryption names the total the page held before the call, not the one
    just decrypted: after a first decryption it reads "Total: undefined"
    while the hook holds the value. *)
Theorem decrypt_toast_names_the_previous_total (browser : Browser) (props : Props)
    (contract : string) (signer : Signer) (instance : Instance) (user : string)
    (provider : Provider) (v : View) (h' : Hook) :
  canWrite props contract signer instance user provider ->
  decryptTotal browser props (hook v) = (Return tt, h') ->
  fst (handleDecryptTotal browser props v) = Return tt /\
  toasts (snd (handleDecryptTotal browser props v)) =
    toasts v ++ [decryptedToast (decryptedTotal (hook v))] /\
  (exists value, decryptedTotal (hook (snd (handleDecryptTotal browser props v))) = Some value) /\
  (decryptedTotal (hook v) = None ->
   toast_description (decryptedToast (decryptedTotal (hook v))) = Some "Total: undefined").
Proof.
  intros Hready Hrun. rewrite handleDecryptTotal_run, Hrun. simpl.
  repeat split.
  - exact (decryptTotal_returned_value browser props contract signer instance user provider
             (hook v) h' Hready Hrun).
  - by intros ->.
Qed.

(** X21.  With a precondition of [decryptTotal] missing, the page still reports
    a decryption: [handleDecryptTotal] shows the success toast "Monthly
    total decrypted!", nothing was read or decrypted, and the hook's own
    message "Missing requirements for decryption" is shown as an info
    toast, not as an error. *)
Theorem missing_requirements_are_toasted_as_success (browser : Browser) (props : Props)
    (v : View) :
  truthy (contractAddress props) = None \/ ethersProvider props = None \/
  fhevmInstance props = None \/ ethersSigner props = None \/
  truthy (address props) = None ->
  toasts (snd (handleDecryptTotal browser props v)) =
    toasts v ++ [decryptedToast (decryptedTotal (hook v))] /\
  effects (hook (snd (handleDecryptTotal browser props v))) = effects (hook v) /\
  decryptedTotal (hook (snd (handleDecryptTotal browser props v))) = decryptedTotal (hook v) /\
  toast_kind <$> messageToast (message (hook (snd (handleDecryptTotal browser props v))))
    = Some ToastInfo.
Proof.
  intros Hmissing. rewrite handleDecryptTotal_run.
  rewrite (decryptTotal_unchecked browser props (hook v) Hmissing). done.
Qed.

(** X22.  How the page shows what the catch blocks of the four operations
    leave as the message.  The outer and the refresh [catch] of
    [addExpense], the [catch] of [decryptTotal] and the outer [catch] of
    [loadEncryptedTotal] leave, for every error and every state, a message
    that is shown as an error toast.  The [catch] of [loadExpenseRecords]
    leaves the message as it was.  The inner [catch] of
    [loadEncryptedTotal] is the exception: on chain 31337 a failed
    [getBlockNumber] leaves the Hardhat guidance, which is shown as an info
    toast.  The texts of the six precondition checks and "Missing
    requirements for decryption" are shown as info toasts too. *)
Theorem caught_errors_are_error_toasts (props : Props) (e : JsError) (h : Hook) :
  toast_kind <$> messageToast (message (snd (addExpense_catch e h))) = Some ToastError /\
  toast_kind <$> messageToast (message (snd (addExpense_refresh_catch e h)))
    = Some ToastError /\
  toast_kind <$> messageToast (message (snd (decryptTotal_catch e h))) = Some ToastError /\
  toast_kind <$> messageToast (message (snd (loadEncryptedTotal_catch props e h)))
    = Some ToastError /\
  message (snd (loadExpenseRecords_catch e h)) = message h /\
  (forall contract provider user,
     canRead props contract provider user ->
     chainId props = 31337 ->
     getBlockNumber provider (length (effects h)) = inl e ->
     toast_kind <$> messageToast (message (snd (loadEncryptedTotal props h)))
       = Some ToastInfo) /\
  Forall (fun m => toast_kind <$> messageToast (Some m) = Some ToastInfo)
    (missingRequirementsMessage :: preconditionMessages).
Proof.
  repeat apply conj.
  - done.
  - done.
  - simpl. unfold decryptFailureMessage. by destruct (_ || _).
  - done.
  - done.
  - intros contract provider user (Hc & Hp & Ha) Hchain Hblock.
    unfold loadEncryptedTotal. rewrite Hc, Hp, Ha.
    unfold loadEncryptedTotal_try.
    unfold tryFinally, tryCatch, mbind, M_bind, perform,
      setIsLoading, setMessage, consoleError, mret, M_ret.
    simpl. by rewrite Hblock, Hchain.
  - repeat constructor.
Qed.

(** X23.  [addExpense] never touches the decrypted total: once a total has been
    decrypted, adding an expense leaves the old value on the page and the
    Decrypt button disabled, although the encrypted total has changed. *)
Theorem adding_keeps_the_decrypted_total (browser : Browser) (props : Props)
    (amount : number) (category : string) (h : Hook) :
  decryptedTotal (snd (addExpense browser props amount category h)) = decryptedTotal h /\
  (decryptedTotal h <> None ->
   decryptButtonEnabled (snd (addExpense browser props amount category h)) = false).
Proof.
  pose proof (same_addExpense_decrypted browser props amount category h) as Hsame.
  unfold same in Hsame. split; [exact Hsame|].
  intros Hsome. unfold decryptButtonEnabled. rewrite Hsame.
  rewrite (bool_decide_eq_true_2 _ Hsome), orb_true_r. simpl.
  by destruct (encryptedTotal _) as [[[|]|]|].
Qed.

(** *** The properties at the sample page *)

Import ClientSamples PageSamples.

Lemma dialog_rejects_before_submitting_witness :
  exists text,
    handleSubmit typed (handleAddExpense browser (connected node wallet)) setShowNewExpense
      (opened "0" initial) =
    (Return tt,
     {| hook := initial; toasts := []; showNewExpense := true; form_amount := "0";
        form_category := "materials"; form_error := Some text |}).
Proof.
  apply (dialog_rejects_before_submitting typed
           (handleAddExpense browser (connected node wallet)) setShowNewExpense
           (opened "0" initial)).
  left. reflexivity.
Defined.

Lemma dialog_closes_whatever_the_add_does_witness :
  showNewExpense (snd (submitNewExpense browser (connected node refusingWallet) typed
                         (opened "1000" initial))) = false /\
  form_error (snd (submitNewExpense browser (connected node refusingWallet) typed
                     (opened "1000" initial))) = None /\
  toasts (snd (submitNewExpense browser (connected node refusingWallet) typed
                 (opened "1000" initial))) =
    [{| toast_kind := ToastError; toast_title := "Failed to add expense";
        toast_description := Some "user rejected action" |}].
Proof.
  rewrite (dialog_closes_whatever_the_add_does browser (connected node refusingWallet) typed
             (opened "1000" initial) eq_refl ltac:(discriminate)).
  vm_compute. repeat split; reflexivity.
Defined.

Lemma decrypt_toast_names_the_previous_total_witness :
  toasts (snd (handleDecryptTotal browser (connected node wallet) (opened "" initial))) =
    [{| toast_kind := ToastSuccess; toast_title := "Monthly total decrypted!";
        toast_description := Some "Total: undefined" |}] /\
  decryptedTotal (hook (snd (handleDecryptTotal browser (connected node wallet)
                               (opened "" initial)))) = Some 1500.
Proof.
  assert (Hrun : decryptTotal browser (connected node wallet) (hook (opened "" initial))
                 = (Return tt, decrypted)) by (vm_compute; reflexivity).
  destruct (decrypt_toast_names_the_previous_total browser (connected node wallet) ledger
              wallet relayer account node (opened "" initial) decrypted
              (connected_canWrite node wallet) Hrun) as (_ & Htoast & _ & _).
  split; [exact Htoast|]. vm_compute. reflexivity.
Defined.

Lemma missing_requirements_are_toasted_as_success_witness :
  fhevmInstance loading = None /\
  toasts (snd (handleDecryptTotal browser loading (opened "" initial))) =
    [{| toast_kind := ToastSuccess; toast_title := "Monthly total decrypted!";
        toast_description := Some "Total: undefined" |}] /\
  effects (hook (snd (handleDecryptTotal browser loading (opened "" initial)))) = [].
Proof.
  assert (H : fhevmInstance loading = None) by reflexivity.
  destruct (missing_requirements_are_toasted_as_success browser loading (opened "" initial)
              (or_intror (or_intror (or_introl H)))) as (Htoast & Heffects & _).
  exact (conj H (conj Htoast Heffects)).
Defined.

Lemma caught_errors_are_error_toasts_witness :
  toast_kind <$> messageToast (message (snd (loadEncryptedTotal localStopped initial)))
    = Some ToastInfo /\
  toast_kind <$> messageToast (message (snd (loadEncryptedTotal (connected deadNode wallet)
                                                initial)))
    = Some ToastError.
Proof.
  destruct (caught_errors_are_error_toasts localStopped offline initial)
    as (_ & _ & _ & _ & _ & Hinner & _).
  split.
  - exact (Hinner ledger deadNode account ltac:(by repeat split) eq_refl eq_refl).
  - vm_compute. reflexivity.
Defined.

Lemma adding_keeps_the_decrypted_total_witness :
  decryptedTotal decrypted <> None /\
  decryptedTotal (snd (addExpense browser (connected node wallet) (Finite 1000)
                         "materials" decrypted)) = Some 1500 /\
  decryptButtonEnabled (snd (addExpense browser (connected node wallet) (Finite 1000)
                               "materials" decrypted)) = false.
Proof.
  assert (H : decryptedTotal decrypted <> None) by (vm_compute; discriminate).
  destruct (adding_keeps_the_decrypted_total browser (connected node wallet) (Finite 1000)
              "materials" decrypted) as [Hkeep Hbutton].
  split; [exact H|]. split; [|exact (Hbutton H)].
  rewrite Hkeep. vm_compute. reflexivity.
Defined.

End PageProofs.
